(** * Hot language support for VS Code: the eval/format dispatch layer

    A shallow embedding of the extension's core functions
    ([compareSemver], [doVersionCheck], [getTopLevelForm],
    [showInlineResult], [evaluateHotCode], [formatHotDocument]) and the
    properties its specification states about them.

    Part I holds the embedding, one module per component; Part II the
    theorems. *)

From Stdlib Require Import ZArith NArith List Bool Lia Ascii String.
From stdpp Require Import base gmap strings list.

(* ===================================================================== *)
(** * Part I: the embedding                                                *)
(* ===================================================================== *)

(** ** JavaScript strings

    A JS string is a sequence of UTF-16 code units; [length] is the JS
    [.length].  The characters the extension tests for are all in the Basic
    Multilingual Plane, so iterating by code unit and by code point
    ([for (const ch of text)]) count the same braces and parentheses. *)
Module JS.
Local Open Scope N_scope.

Abbreviation str := (list N).

(** An ASCII literal as a JS string. *)
Definition lit (s : string) : str := N_of_ascii <$> list_ascii_of_string s.

(** [s === t] on strings. *)
Definition eqb (s t : str) : bool := bool_decide (s = t).

(** Truthiness of a string: every string but the empty one. *)
Definition truthy (s : str) : bool := negb (eqb s []).

(** Truthiness of an optional string ([undefined] is falsy). *)
Definition truthyOpt (o : option str) : bool :=
  match o with
  | Some s => truthy s
  | None => false
  end.

(** ECMAScript WhiteSpace and LineTerminator code units: what
    [String.prototype.trim] strips, what [\s] matches and what [parseInt]
    skips. *)
Definition isWhiteSpace (c : N) : bool :=
  (c =? 9) || (c =? 10) || (c =? 11) || (c =? 12) || (c =? 13) || (c =? 32)
  || (c =? 0xA0) || (c =? 0x1680) || ((0x2000 <=? c) && (c <=? 0x200A))
  || (c =? 0x2028) || (c =? 0x2029) || (c =? 0x202F) || (c =? 0x205F)
  || (c =? 0x3000) || (c =? 0xFEFF).

Fixpoint trimStart (s : str) : str :=
  match s with
  | c :: s' => if isWhiteSpace c then trimStart s' else s
  | [] => []
  end.

Definition trimEnd (s : str) : str := rev (trimStart (rev s)).

Definition trim (s : str) : str := trimEnd (trimStart s).

Fixpoint startsWith (s p : str) : bool :=
  match p, s with
  | [], _ => true
  | c :: p', d :: s' => (c =? d) && startsWith s' p'
  | _ :: _, [] => false
  end.

Definition endsWith (s p : str) : bool := startsWith (rev s) (rev p).

Fixpoint includes (s p : str) : bool :=
  startsWith s p
  || match s with
     | [] => false
     | _ :: s' => includes s' p
     end.

(** [s.split(re)] for a regular expression [re] that matches exactly one
    code unit satisfying [sep].  The result is never empty:
    [''.split(re)] is [['']]. *)
Fixpoint split (sep : N → bool) (s : str) : list str :=
  match s with
  | [] => [[]]
  | c :: s' =>
      if sep c then [] :: split sep s'
      else match split sep s' with
           | h :: t => (c :: h) :: t
           | [] => [[c]]
           end
  end.

Definition digit (c : N) : option Z :=
  if (48 <=? c) && (c <=? 57) then Some (Z.of_N (c - 48)) else None.

Fixpoint digits (s : str) (acc : Z) : Z :=
  match s with
  | c :: s' =>
      match digit c with
      | Some d => digits s' (10 * acc + d)%Z
      | None => acc
      end
  | [] => acc
  end.

(** [parseInt(s, 10)]; [None] is [NaN].  Leading white space is skipped, one
    sign is read, then the longest run of decimal digits.  Values are exact
    integers here; JS rounds those above 2^53 to the nearest double. *)
Definition parseInt (s : str) : option Z :=
  let s := trimStart s in
  let '(sign, s) :=
    match s with
    | c :: r =>
        if c =? 45 then ((-1)%Z, r)
        else if c =? 43 then (1%Z, r)
        else (1%Z, s)
    | [] => (1%Z, s)
    end in
  match s with
  | c :: _ =>
      match digit c with
      | Some _ => Some (sign * digits s 0)%Z
      | None => None
      end
  | [] => None
  end.

(** [x || 0] for a number [x]: [NaN] and [0] are the falsy numbers. *)
Definition orZero (x : option Z) : Z :=
  match x with
  | Some n => n
  | None => 0%Z
  end.

(** [s.replace(/\n/g, r)]. *)
Definition replaceNewlines (r : str) (s : str) : str :=
  flat_map (λ c, if c =? 10 then r else [c]) s.

(** [parts.join(sep)]. *)
Fixpoint join (sep : str) (parts : list str) : str :=
  match parts with
  | [] => []
  | [p] => p
  | p :: ps => p ++ sep ++ join sep ps
  end.

End JS.

(** ** Version comparison and the update check *)
Module Semver.
Local Open Scope N_scope.

(** [v.replace(/^v/, '')]. *)
Definition stripV (v : JS.str) : JS.str :=
  match v with
  | c :: r => if c =? 118 then r else v
  | [] => []
  end.

(** The character class [[-.]]. *)
Definition isDashOrDot (c : N) : bool := (c =? 45) || (c =? 46).

(** [v.replace(/^v/, '').split(/[-.]/).map(x => parseInt(x, 10) || 0)]. *)
Definition parts (v : JS.str) : list Z :=
  (λ x, JS.orZero (JS.parseInt x)) <$> JS.split isDashOrDot (stripV v).

(** The loop [for (let i = 0; i < len; i++)] of [compareSemver], entered at
    index [i] with [n = len - i] iterations left; [pa[i] || 0] is [nth i pa 0]. *)
Fixpoint compareFrom (pa pb : list Z) (i n : nat) : Z :=
  match n with
  | O => 0
  | S n' =>
      let na := nth i pa 0%Z in
      let nb := nth i pb 0%Z in
      if (na <? nb)%Z then (-1)
      else if (na >? nb)%Z then 1
      else compareFrom pa pb (S i) n'
  end.

Definition compareSemver (a b : JS.str) : Z :=
  let pa := parts a in
  let pb := parts b in
  let len := Nat.max (length pa) (length pb) in
  compareFrom pa pb 0 len.

(** The response handler of [doVersionCheck]: [data] is the body received
    from the version endpoint, [installedVersion] the module variable
    ([None] is [null]).  The result tells whether the update notification
    ([showInformationMessage]) is shown. *)
Definition doVersionCheck (installedVersion : option JS.str) (data : JS.str) : bool :=
  let latestVersion := JS.trim data in
  match installedVersion with
  | None => false
  | Some installed =>
      if negb (JS.truthy latestVersion) || negb (JS.truthy installed) then false
      else (compareSemver installed latestVersion <? 0)%Z
  end.

End Semver.

(** ** The form extractor *)
Module Form.

(** A text document as the editor presents it: its lines without their
    line breaks, and the line break ([\n] or [\r\n]) that joins them. *)
Record TextDocument := {
  lines : list JS.str;
  eol : JS.str
}.

Definition lineCount (d : TextDocument) : nat := length (lines d).

Record Position := { line : nat; character : nat }.

Record Range := { start : Position; stop : Position }.

(** The value [getTopLevelForm] returns when it is not [null]. *)
Record Form := { text : JS.str; range : Range }.

(** A computation either returns or throws. *)
Inductive outcome (A : Type) : Type :=
  | Value (a : A)
  | Thrown (message : JS.str).
Arguments Value {A} a.
Arguments Thrown {A} message.

(** Computations that read the document thread the list of line indices
    handed to [document.lineAt] so far. *)
Definition Scan (A : Type) : Type := list nat → outcome A * list nat.

Definition ret {A} (a : A) : Scan A := λ tr, (Value a, tr).

Definition bind {A B} (m : Scan A) (k : A → Scan B) : Scan B :=
  λ tr, match m tr with
        | (Value a, tr') => k a tr'
        | (Thrown e, tr') => (Thrown e, tr')
        end.

Notation "'let*' x ':=' m 'in' k" := (bind m (λ x, k))
  (at level 10, x name, m at level 100, k at level 200).

(** [document.lineAt(i).text]; the editor throws for a line that is not in
    the document. *)
Definition lineAt (d : TextDocument) (i : nat) : Scan JS.str :=
  λ tr, (match lines d !! i with
         | Some t => Value t
         | None => Thrown (JS.lit "Illegal value for `line`")
         end, tr ++ [i]).

(** [text.trim() === '' || text.trim().startsWith('//')]. *)
Definition isBlankOrComment (text : JS.str) : bool :=
  JS.eqb (JS.trim text) [] || JS.startsWith (JS.trim text) (JS.lit "//").

(** [/^[a-zA-Z_:]/u.test(text)]. *)
Definition startsDefinition (text : JS.str) : bool :=
  match text with
  | c :: _ =>
      (((97 <=? c) && (c <=? 122)) || ((65 <=? c) && (c <=? 90))
       || (c =? 95) || (c =? 58))%N
  | [] => false
  end.

(** The upward loop [for (let i = position.line; i >= 0; i--)], entered at
    [i]; [startLine] holds the variable's value before the loop. *)
Fixpoint findStart (d : TextDocument) (i startLine : nat) : Scan nat :=
  let* text := lineAt d i in
  if isBlankOrComment text then
    match i with
    | O => ret startLine
    | S i' => findStart d i' startLine
    end
  else if startsDefinition text then ret i
  else
    match i with
    | O => ret startLine
    | S i' => findStart d i' startLine
    end.

(** The three counters of the downward scan. *)
Record Counts := {
  braceCount : Z;
  parenCount : Z;
  foundBody : bool
}.

Definition noCounts : Counts :=
  {| braceCount := 0; parenCount := 0; foundBody := false |}.

(** The body of [for (const ch of text)]: four tests in sequence. *)
Definition countChar (st : Counts) (ch : N) : Counts :=
  let st := if (ch =? 123)%N
            then {| braceCount := braceCount st + 1; parenCount := parenCount st;
                    foundBody := true |}
            else st in
  let st := if (ch =? 125)%N
            then {| braceCount := braceCount st - 1; parenCount := parenCount st;
                    foundBody := foundBody st |}
            else st in
  let st := if (ch =? 40)%N
            then {| braceCount := braceCount st; parenCount := parenCount st + 1;
                    foundBody := foundBody st |}
            else st in
  if (ch =? 41)%N
  then {| braceCount := braceCount st; parenCount := parenCount st - 1;
          foundBody := foundBody st |}
  else st.

Definition countLine (st : Counts) (text : JS.str) : Counts :=
  fold_left countChar text st.

(** [foundBody && braceCount === 0 && parenCount <= 0]. *)
Definition bodyClosed (st : Counts) : bool :=
  foundBody st && (braceCount st =? 0)%Z && (parenCount st <=? 0)%Z.

(** [/^[a-zA-Z_:]/u.test(text) && text.trim() !== '' &&
    !text.trim().startsWith('//')]. *)
Definition beginsUnit (text : JS.str) : bool :=
  startsDefinition text && negb (JS.eqb (JS.trim text) [])
  && negb (JS.startsWith (JS.trim text) (JS.lit "//")).

(** The downward loop [for (let i = startLine; i < document.lineCount; i++)],
    entered at [i] with [n = lineCount - i] iterations left and the counters
    [st]; [endLine] holds the variable's current value. *)
Fixpoint findEnd (d : TextDocument) (startLine i n : nat) (st : Counts)
    (endLine : nat) : Scan nat :=
  match n with
  | O => ret endLine
  | S n' =>
      let* text := lineAt d i in
      let st := countLine st text in
      let endLine := i in
      if bodyClosed st then ret endLine
      else if (startLine <? i)%nat && beginsUnit text then ret (i - 1)%nat
      else findEnd d startLine (S i) n' st endLine
  end.

(** [document.getText(range)] for a range from column 0 of [startLine] to
    the end of [endLine]: these lines joined by the line break.  The range
    [getTopLevelForm] builds always has this shape with
    [startLine <= endLine], so the [Range] constructor keeps its ends in
    the order given. *)
Definition getLines (d : TextDocument) (startLine endLine : nat) : JS.str :=
  JS.join (eol d) (take (S endLine - startLine) (drop startLine (lines d))).

(** [text.match(/^::[^\s]+ ns$/)]: two colons, one or more code units that
    are not white space, then [ ns] at the end of the text. *)
Definition matchesNsDecl (text : JS.str) : bool :=
  JS.startsWith text (JS.lit "::") && JS.endsWith text (JS.lit " ns")
  && (5 <? length text)%nat
  && forallb (λ c, negb (JS.isWhiteSpace c))
       (take (length text - 5) (drop 2 text)).

(** [None] is [null]. *)
Definition getTopLevelForm (d : TextDocument) (position : Position)
    : Scan (option Form) :=
  let* startLine := findStart d (line position) (line position) in
  let* endLine := findEnd d startLine startLine (lineCount d - startLine) noCounts
              (line position) in
  let* lastText := lineAt d endLine in
  let range := {| start := {| line := startLine; character := 0 |};
                  stop := {| line := endLine; character := length lastText |} |} in
  let text := JS.trim (getLines d startLine endLine) in
  if JS.endsWith text (JS.lit " ns") || matchesNsDecl text then ret None
  else ret (Some {| text := text; range := range |}).

(** Every index handed to [lineAt] is the index of a line of the document. *)
Definition inBounds (d : TextDocument) (tr : list nat) : Prop :=
  Forall (λ i, (i < lineCount d)%nat) tr.

(** *** The end line, read off the document

    The counters at the end of line [i - 1] of a scan that started at
    [startLine]. *)
Definition countsUpTo (d : TextDocument) (startLine i : nat) : Counts :=
  fold_left countLine (take (i - startLine) (drop startLine (lines d))) noCounts.

(** The counters at the end of line [i]. *)
Definition countsAt (d : TextDocument) (startLine i : nat) : Counts :=
  countsUpTo d startLine (S i).

(** Whether the scan that started at [startLine] stops when it has read line
    [i], and the end line it then reports. *)
Definition stopAt (d : TextDocument) (startLine i : nat) : option nat :=
  match lines d !! i with
  | None => None
  | Some text =>
      if bodyClosed (countsAt d startLine i) then Some i
      else if (startLine <? i)%nat && beginsUnit text then Some (i - 1)%nat
      else None
  end.

(** The end line the scan reports: decided by the first line at which it
    stops, and the last line of the document when it stops at none. *)
Definition endsAt (d : TextDocument) (startLine e : nat) : Prop :=
  (∃ i, startLine ≤ i < lineCount d
        ∧ (∀ j, startLine ≤ j < i → stopAt d startLine j = None)
        ∧ stopAt d startLine i = Some e)
  ∨ ((∀ j, startLine ≤ j < lineCount d → stopAt d startLine j = None)
     ∧ e = (lineCount d - 1)%nat).

(** The braces of the scan from [startLine] never balance: at the end of no
    line is the brace count back at zero. *)
Definition unbalancedFrom (d : TextDocument) (startLine : nat) : Prop :=
  ∀ i, startLine ≤ i < lineCount d → braceCount (countsAt d startLine i) ≠ 0%Z.

(** The first line after [startLine] that begins a top-level unit. *)
Definition nextUnit (d : TextDocument) (startLine : nat) : option nat :=
  (λ p, (S startLine + p.1)%nat)
    <$> list_find (λ t, beginsUnit t = true) (drop (S startLine) (lines d)).

(** *** The end line as the specification words it

    Brace nesting alone: the nesting after a character, and whether it has
    been positive so far. *)
Definition nestChar (st : Z * bool) (ch : N) : Z * bool :=
  let b := if (ch =? 123)%N then (st.1 + 1)%Z
           else if (ch =? 125)%N then (st.1 - 1)%Z
           else st.1 in
  (b, st.2 || (0 <? b)%Z).

Definition nestingAt (d : TextDocument) (startLine i : nat) : Z * bool :=
  fold_left (λ st text, fold_left nestChar text st)
    (take (S i - startLine) (drop startLine (lines d))) (0%Z, false).

(** "Stop either when brace-nesting returns to zero after having gone
    positive at least once, or when a subsequent line begins a new top-level
    unit, whichever comes first." *)
Definition specStopAt (d : TextDocument) (startLine i : nat) : option nat :=
  match lines d !! i with
  | None => None
  | Some text =>
      let st := nestingAt d startLine i in
      if st.2 && (st.1 =? 0)%Z then Some i
      else if (startLine <? i)%nat && beginsUnit text then Some (i - 1)%nat
      else None
  end.

Fixpoint firstStop (stop : nat → option nat) (i n : nat) : option nat :=
  match n with
  | O => None
  | S n' =>
      match stop i with
      | Some e => Some e
      | None => firstStop stop (S i) n'
      end
  end.

Definition specEndLine (d : TextDocument) (startLine : nat) : nat :=
  default (lineCount d - 1)%nat
    (firstStop (specStopAt d startLine) startLine (lineCount d - startLine)).

End Form.

(** ** The result renderer *)
Module Render.

Inductive ThemeColor := errorForeground | terminalAnsiGreen.

(** The one decoration [showInlineResult] builds: an empty range at the end
    of the evaluated span and the text rendered after it. *)
Record Decoration := {
  range : Form.Range;
  contentText : JS.str;
  color : ThemeColor
}.

(** The test [stdout && stdout.trim()] on the optional side output. *)
Definition hasOutput (stdout : option JS.str) : bool :=
  match stdout with
  | Some out => JS.truthy out && JS.truthy (JS.trim out)
  | None => false
  end.

(** "Combine stdout and result for display". *)
Definition combine (result : JS.str) (stdout : option JS.str) : JS.str :=
  match stdout with
  | Some out =>
      if JS.truthy out && JS.truthy (JS.trim out)
      then JS.trim out
           ++ (if JS.truthy result && negb (JS.eqb result (JS.lit "null"))
               then JS.lit " => " ++ result
               else [])
      else result
  | None => result
  end.

(** [displayResult.replace(/\n/g, ' ↵ ')]. *)
Definition collapse (text : JS.str) : JS.str :=
  JS.replaceNewlines [32; 0x21B5; 32]%N text.

(** "Truncate long results": [maxLen] is 80 and the ellipsis is U+2026. *)
Definition truncate (text : JS.str) : JS.str :=
  let maxLen := 80%nat in
  if (maxLen <? length text)%nat then take maxLen text ++ [0x2026%N] else text.

(** The final value of the variable [displayResult]. *)
Definition displayResult (result : JS.str) (stdout : option JS.str) : JS.str :=
  truncate (collapse (combine result stdout)).

(** [contentText: stdout ? displayResult : `=> ${displayResult}`]. *)
Definition displayedText (result : JS.str) (stdout : option JS.str) : JS.str :=
  if JS.truthyOpt stdout then displayResult result stdout
  else JS.lit "=> " ++ displayResult result stdout.

(** The lines [showResultInOutputChannel] appends to the eval output
    channel; [timestamp] is [new Date().toLocaleTimeString()]. *)
Definition showResultInOutputChannel (timestamp code result : JS.str)
    (isError : bool) (stdout : option JS.str) : list JS.str :=
  let indent (text : JS.str) : JS.str :=
    JS.lit "  " ++ JS.join (10%N :: JS.lit "  ") (JS.split (N.eqb 10) text) in
  [JS.lit "[" ++ timestamp ++ JS.lit "] Evaluating:"; indent code; []]
  ++ match stdout with
     | Some out =>
         if JS.truthy out && JS.truthy (JS.trim out)
         then [JS.lit "Output:"; indent (JS.trim out); []]
         else []
     | None => []
     end
  ++ [if isError then JS.lit "Error: " ++ result else JS.lit "=> " ++ result;
      repeat 0x2500%N 60;
      []].

(** *** The editor host

    An editor and the document it shows, by identity. *)
Record Editor := { editorId : nat; document : nat }.

(** The part of the host [showInlineResult] acts on: the decorations each
    editor shows for the eval decoration type (one type for the session,
    made by [getEvalDecorationType]), the live subscriptions to
    [onDidChangeTextDocument] with the editor their handler closes over, and
    the pending [setTimeout] callbacks with the editor and the subscription
    they close over. *)
Record Host := {
  decorations : gmap nat (list Decoration);
  listeners : gmap nat Editor;
  timers : gmap nat (Editor * nat)
}.

(** [editor.setDecorations(decorationType, ds)]. *)
Definition setDecorations (editor : Editor) (ds : list Decoration) (h : Host) : Host :=
  {| decorations := <[editorId editor := ds]> (decorations h);
     listeners := listeners h;
     timers := timers h |}.

(** [disposable.dispose()]: the subscription is removed; disposing twice is
    allowed and does nothing the second time. *)
Definition dispose (l : nat) (h : Host) : Host :=
  {| decorations := decorations h;
     listeners := delete l (listeners h);
     timers := timers h |}.

(** The host after [showInlineResult], with the subscription and the timer
    it registered. *)
Definition showInlineResult (editor : Editor) (range : Form.Range)
    (result : JS.str) (isError : bool) (stdout : option JS.str) (h : Host)
    : Host * nat * nat :=
  let decoration :=
    {| range := {| Form.start := Form.stop range; Form.stop := Form.stop range |};
       contentText := displayedText result stdout;
       color := if isError then errorForeground else terminalAnsiGreen |} in
  let h := setDecorations editor [decoration] h in
  let l := fresh (dom (listeners h)) in
  let h := {| decorations := decorations h;
              listeners := <[l := editor]> (listeners h);
              timers := timers h |} in
  let t := fresh (dom (timers h)) in
  let h := {| decorations := decorations h;
              listeners := listeners h;
              timers := <[t := (editor, l)]> (timers h) |} in
  (h, l, t).

(** The two things that clear an annotation: the host delivering a document
    change to subscription [l], and timer [t] running out. *)
Inductive Trigger :=
  | DidChangeTextDocument (l : nat) (doc : nat)
  | Timeout (t : nat).

(** What a trigger runs.  A change event reaches only a subscription that is
    still live; its handler acts when the changed document is the editor's.
    A timer runs its callback once. *)
Definition fire (tg : Trigger) (h : Host) : Host :=
  match tg with
  | DidChangeTextDocument l doc =>
      match listeners h !! l with
      | Some editor =>
          if bool_decide (doc = document editor)
          then dispose l (setDecorations editor [] h)
          else h
      | None => h
      end
  | Timeout t =>
      match timers h !! t with
      | Some (editor, l) =>
          dispose l (setDecorations editor []
            {| decorations := decorations h;
               listeners := listeners h;
               timers := delete t (timers h) |})
      | None => h
      end
  end.

Global Instance ThemeColor_eq_dec : EqDecision ThemeColor.
Proof. solve_decision. Defined.
Global Instance Position_eq_dec : EqDecision Form.Position.
Proof. solve_decision. Defined.
Global Instance Range_eq_dec : EqDecision Form.Range.
Proof. solve_decision. Defined.
Global Instance Decoration_eq_dec : EqDecision Decoration.
Proof. solve_decision. Defined.

(** A trigger is an effective clear when it changes what some editor
    shows. *)
Definition isEffective (tg : Trigger) (h : Host) : bool :=
  bool_decide (decorations (fire tg h) ≠ decorations h).

(** The number of effective clears when the triggers fire in order. *)
Fixpoint effectiveClears (tgs : list Trigger) (h : Host) : nat :=
  match tgs with
  | [] => 0
  | tg :: rest =>
      ((if isEffective tg h then 1 else 0) + effectiveClears rest (fire tg h))%nat
  end.

End Render.

(** ** Child processes

    What [child_process.execFile] reports about the command it ran. *)
Module Child.

(** A JS [Error]: the code reads only its message. *)
Record JsError := { message : JS.str }.

Inductive Outcome :=
  | ExitZero (out err : JS.str)
      (** ran and exited with code 0 *)
  | ExitNonZero (code : Z) (e : JsError) (out err : JS.str)
      (** ran and exited with another code *)
  | SpawnFailure (e : JsError)
      (** could not be started; nothing was captured *)
  | TimedOut (e : JsError) (out err : JS.str).
      (** killed when the [timeout] option ran out *)

(** The arguments [(error, stdout, stderr)] of the callback: [error] is
    [null] exactly after exit code 0. *)
Definition callbackArgs (o : Outcome) : option JsError * JS.str * JS.str :=
  match o with
  | ExitZero out err => (None, out, err)
  | ExitNonZero _ e out err => (Some e, out, err)
  | SpawnFailure e => (Some e, [], [])
  | TimedOut e out err => (Some e, out, err)
  end.

End Child.

(** ** The dispatcher *)
Module Eval.

(** The object [evaluateHotCode] resolves to; a field that is [undefined]
    is [None]. *)
Record EvalResult := {
  success : bool;
  result : JS.str;
  error : option JS.str;
  namespace : option JS.str;
  stdout : option JS.str
}.

(** The parameters of the [hot/eval] request. *)
Record EvalParams := {
  code : JS.str;
  paramNamespace : option JS.str;
  paramFileUri : option JS.str
}.

(** How [await client.sendRequest(...)] ends: with the server's response
    ([None] when it is [null] or [undefined]) or with an exception. *)
Inductive Reply :=
  | Responds (r : option EvalResult)
  | Rejects (e : Child.JsError).

(** The session and the world around one evaluation: the module variables
    [client], [isRunning] and [channel], the settings, what the server
    answers and what the command-line tool does. *)
Record Env := {
  client : bool;  (* whether [client] holds a client or is [null] *)
  isRunning : bool;
  channel : bool;
  commandPath : JS.str;
  cwd : JS.str;
  sendRequest : JS.str → EvalParams → Reply;
  execFile : JS.str → list JS.str → Z → JS.str → Child.Outcome
}.

(** What the evaluation did to the world, in order. *)
Inductive Event :=
  | SentRequest (method : JS.str) (params : EvalParams)
  | AppendedLine (text : JS.str)
  | ExecutedFile (command : JS.str) (args : list JS.str) (timeout : Z) (cwd : JS.str).

(** How the promise an async function returns settles. *)
Inductive Settled (A : Type) : Type :=
  | Fulfilled (a : A)
  | Rejected (e : Child.JsError).
Arguments Fulfilled {A} a.
Arguments Rejected {A} e.

(** [x || null] for an optional string. *)
Definition orNull (x : option JS.str) : option JS.str :=
  match x with
  | Some s => if JS.truthy s then Some s else None
  | None => None
  end.

(** "Fall back to CLI": the promise around [execFile] and its callback. *)
Definition cliFallback (env : Env) (code : JS.str) : Settled EvalResult * list Event :=
  let args := [JS.lit "eval"; code] in
  let '(error, stdout, stderr) :=
    Child.callbackArgs (execFile env (commandPath env) args 30000 (cwd env)) in
  (Fulfilled
     match error with
     | Some e =>
         {| success := false; result := [];
            error := Some (if JS.truthy stderr then stderr else Child.message e);
            namespace := None; stdout := None |}
     | None =>
         {| success := true; result := JS.trim stdout;
            error := None; namespace := None; stdout := None |}
     end,
   [ExecutedFile (commandPath env) args 30000 (cwd env)]).

Definition evaluateHotCode (env : Env) (code : JS.str)
    (namespace fileUri : option JS.str) : Settled EvalResult * list Event :=
  if client env && isRunning env then
    let params := {| code := code; paramNamespace := orNull namespace;
                     paramFileUri := orNull fileUri |} in
    let sent := SentRequest (JS.lit "hot/eval") params in
    let fallBack (lspError : Child.JsError) :=
      let logged :=
        if channel env
        then [AppendedLine (JS.lit "[hot] LSP eval failed, falling back to CLI: "
                            ++ Child.message lspError)]
        else [] in
      let '(settled, events) := cliFallback env code in
      (settled, sent :: logged ++ events) in
    match sendRequest env (JS.lit "hot/eval") params with
    | Responds (Some r) =>
        (Fulfilled {| success := success r; result := result r; error := error r;
                      namespace := Eval.namespace r; stdout := Eval.stdout r |},
         [sent])
    | Responds None =>
        fallBack {| Child.message :=
                      JS.lit "Cannot read properties of null (reading 'success')" |}
    | Rejects lspError => fallBack lspError
    end
  else cliFallback env code.




End Eval.

(** ** The format bridge *)
Module Fmt.

(** [vscode.TextEdit.replace(fullRange, formatted)]: the replaced range by
    the offsets handed to [document.positionAt], and the new text. *)
Record TextEdit := {
  rangeStart : nat;
  rangeEnd : nat;
  newText : JS.str
}.

(** The world the bridge acts on: the files by path, and the lines written
    to the output channel. *)
Record World := {
  files : gmap JS.str JS.str;
  logged : list JS.str
}.

(** What surrounds one formatting request.  [writeFault] and [readFault]
    are the exceptions [fs.writeFileSync] and [fs.readFileSync] throw when
    the file system refuses (no space, no permission); [execFile] is what
    the formatter does to the files and how it ends. *)
Record Env := {
  tmpFile : JS.str;
  commandPath : JS.str;
  channel : bool;
  writeFault : option Child.JsError;
  readFault : option Child.JsError;
  execFile : JS.str → list JS.str → Z → gmap JS.str JS.str
             → Child.Outcome * gmap JS.str JS.str
}.

(** A step returns or throws; the world it leaves behind stays either way. *)
Definition IO (A : Type) : Type := World → Form.outcome A * World.

Definition ret {A} (a : A) : IO A := λ w, (Form.Value a, w).

Definition bind {A B} (m : IO A) (k : A → IO B) : IO B :=
  λ w, match m w with
       | (Form.Value a, w') => k a w'
       | (Form.Thrown e, w') => (Form.Thrown e, w')
       end.

Notation "'do' x '<-' m ';' k" := (bind m (λ x, k))
  (at level 10, x name, m at level 100, k at level 200).

(** [try { m } catch (e) { handler e }]. *)
Definition tryCatch {A} (m : IO A) (handler : JS.str → IO A) : IO A :=
  λ w, match m w with
       | (Form.Value a, w') => (Form.Value a, w')
       | (Form.Thrown e, w') => handler e w'
       end.

Definition enoent : JS.str := JS.lit "ENOENT: no such file or directory".

Definition writeFileSync (env : Env) (path content : JS.str) : IO unit :=
  λ w, match writeFault env with
       | Some e => (Form.Thrown (Child.message e), w)
       | None => (Form.Value (),
                  {| files := <[path := content]> (files w); logged := logged w |})
       end.

Definition existsSync (path : JS.str) : IO bool :=
  λ w, (Form.Value (bool_decide (is_Some (files w !! path))), w).

Definition readFileSync (env : Env) (path : JS.str) : IO JS.str :=
  λ w, match files w !! path with
       | None => (Form.Thrown enoent, w)
       | Some content =>
           match readFault env with
           | Some e => (Form.Thrown (Child.message e), w)
           | None => (Form.Value content, w)
           end
       end.

Definition unlinkSync (path : JS.str) : IO unit :=
  λ w, match files w !! path with
       | None => (Form.Thrown enoent, w)
       | Some _ => (Form.Value (),
                    {| files := delete path (files w); logged := logged w |})
       end.

(** [if (channel) channel.appendLine(text)]. *)
Definition appendLine (env : Env) (text : JS.str) : IO unit :=
  λ w, (Form.Value (),
        if channel env
        then {| files := files w; logged := logged w ++ [text] |}
        else w).

(** Running the formatter: the files change as the command makes them, and
    the callback receives [(error, stdout, stderr)]. *)
Definition runFormatter (env : Env)
    : IO (option Child.JsError * JS.str * JS.str) :=
  λ w, let '(o, fs) :=
         execFile env (commandPath env) [JS.lit "fmt"; tmpFile env] 10000 (files w) in
       (Form.Value (Child.callbackArgs o), {| files := fs; logged := logged w |}).

(** The edit that replaces the whole original document. *)
Definition replaceAll (content formatted : JS.str) : TextEdit :=
  {| rangeStart := 0; rangeEnd := length content; newText := formatted |}.

(** The callback of [execFile]: the [try] block and its [catch]. *)
Definition onFormatted (env : Env) (content : JS.str)
    (args : option Child.JsError * JS.str * JS.str) : IO (list TextEdit) :=
  let '(error, _, stderr) := args in
  let giveUp (e : Child.JsError) : IO (list TextEdit) :=
    do _ <- appendLine env (JS.lit "[hot] Format error: " ++ Child.message e);
    do _ <- (if JS.truthy stderr
             then appendLine env (JS.lit "[hot] stderr: " ++ stderr)
             else ret ());
    ret [] in
  tryCatch
    match error with
    | Some e =>
        if JS.truthy stderr && JS.includes stderr (JS.lit "CHAR-AUDIT") then
          do present <- existsSync (tmpFile env);
          if present : bool then
            do formatted <- readFileSync env (tmpFile env);
            do _ <- unlinkSync (tmpFile env);
            if negb (JS.eqb formatted content)
            then ret [replaceAll content formatted]
            else giveUp e
          else giveUp e
        else giveUp e
    | None =>
        do formatted <- readFileSync env (tmpFile env);
        do _ <- unlinkSync (tmpFile env);
        if negb (JS.eqb formatted content)
        then ret [replaceAll content formatted]
        else ret []
    end
    (λ e,
       do _ <- tryCatch (unlinkSync (tmpFile env)) (λ _, ret ());
       do _ <- appendLine env (JS.lit "[hot] Format exception: " ++ e);
       ret []).

(** The promise [formatHotDocument] returns, settled, and the world it
    leaves.  The executor writes the temporary file and starts the
    formatter; an exception in the executor rejects the promise. *)
Definition formatHotDocument (env : Env) (content : JS.str) (w : World)
    : Eval.Settled (list TextEdit) * World :=
  let executor : IO (list TextEdit) :=
    do _ <- writeFileSync env (tmpFile env) content;
    do args <- runFormatter env;
    onFormatted env content args in
  match executor w with
  | (Form.Value edits, w') => (Eval.Fulfilled edits, w')
  | (Form.Thrown e, w') => (Eval.Rejected {| Child.message := e |}, w')
  end.

(** How the formatter ends and the files it leaves, run on the files with
    the temporary file written. *)
Definition ran (env : Env) (content : JS.str) (w : World)
    : Child.Outcome * gmap JS.str JS.str :=
  execFile env (commandPath env) [JS.lit "fmt"; tmpFile env] 10000
    (<[tmpFile env := content]> (files w)).

End Fmt.

(** ** Sample inputs *)
Module Samples.

(** The three-line function of the specification's scenario. *)
Definition doc3 : Form.TextDocument :=
  {| Form.lines := [JS.lit "x fn (n: Int): Int {"; JS.lit "  n"; JS.lit "}"];
     Form.eol := [10%N] |}.

(** A function whose parameter list holds a braced default and runs over
    two lines. *)
Definition docParens : Form.TextDocument :=
  {| Form.lines := [JS.lit "total fn (f: Fn = fn () { 0 },";
                    JS.lit "  n: Int): Int {";
                    JS.lit "  add(f(), n)";
                    JS.lit "}"];
     Form.eol := [10%N] |}.

(** A function whose body is never closed, followed by another function. *)
Definition docOpen : Form.TextDocument :=
  {| Form.lines := [JS.lit "f fn () {"; JS.lit "  1"; JS.lit "g fn () { 2 }"];
     Form.eol := [10%N] |}.

(** The language server is down and [hot eval] prints 2 and a line break. *)
Definition cliPrints2 : Eval.Env :=
  {| Eval.client := false; Eval.isRunning := false; Eval.channel := false;
     Eval.commandPath := JS.lit "hot"; Eval.cwd := JS.lit "/work";
     Eval.sendRequest := λ _ _, Eval.Rejects {| Child.message := JS.lit "not running" |};
     Eval.execFile := λ _ _ _ _, Child.ExitZero (JS.lit "2" ++ [10%N]) [] |}.


(** A formatter that rejects the source: it exits with code 1, reports a
    syntax error and leaves the file as it is. *)
Definition fmtRejects : Fmt.Env :=
  {| Fmt.tmpFile := JS.lit "/tmp/hot-fmt-1.hot";
     Fmt.commandPath := JS.lit "hot";
     Fmt.channel := false;
     Fmt.writeFault := None;
     Fmt.readFault := None;
     Fmt.execFile := λ _ _ _ fs,
       (Child.ExitNonZero 1
          {| Child.message := JS.lit "Command failed: hot fmt /tmp/hot-fmt-1.hot" |}
          [] (JS.lit "error: unexpected token"),
        fs) |}.

(** A temporary directory that cannot be written to. *)
Definition tmpReadOnly : Fmt.Env :=
  {| Fmt.tmpFile := JS.lit "/tmp/hot-fmt-1.hot";
     Fmt.commandPath := JS.lit "hot";
     Fmt.channel := false;
     Fmt.writeFault := Some {| Child.message := JS.lit "EACCES: permission denied" |};
     Fmt.readFault := None;
     Fmt.execFile := λ _ _ _ fs, (Child.ExitZero [] [], fs) |}.

Definition emptyWorld : Fmt.World := {| Fmt.files := ∅; Fmt.logged := [] |}.

End Samples.

(** ** The installed version and the update check *)
Module Update.

(** [stdout.match(/^hot\s+(\S+)/)], the captured group: the text [hot], one
    or more white-space code units, then the longest run of code units that
    are not white space, which must not be empty. *)
Fixpoint takeNonSpace (s : JS.str) : JS.str :=
  match s with
  | c :: s' => if JS.isWhiteSpace c then [] else c :: takeNonSpace s'
  | [] => []
  end.

Definition matchVersion (stdout : JS.str) : option JS.str :=
  if JS.startsWith stdout (JS.lit "hot") then
    let rest := drop 3 stdout in
    let afterSpace := JS.trimStart rest in
    if (length afterSpace <? length rest)%nat then
      match takeNonSpace afterSpace with
      | [] => None
      | v => Some v
      end
    else None
  else None.

(** The callback of [fetchInstalledVersion]: the new value of the module
    variable [installedVersion] ([None] is [null]). *)
Definition fetchInstalledVersion (o : Child.Outcome) (installedVersion : option JS.str)
    : option JS.str :=
  match Child.callbackArgs o with
  | (Some _, _, _) => installedVersion
  | (None, stdout, _) =>
      match matchVersion stdout with
      | Some v => Some v
      | None => installedVersion
      end
  end.





End Update.

(** ** The namespace of a document *)
Module Namespace.

(** [s.indexOf(c)] for one code unit; [None] is -1. *)
Fixpoint indexOf (s : JS.str) (c : N) : option nat :=
  match s with
  | [] => None
  | d :: s' => if (d =? c)%N then Some 0%nat else S <$> indexOf s' c
  end.

(** The search of [s.lastIndexOf(p)] downward from index [i]. *)
Fixpoint lastIndexFrom (s p : JS.str) (i : nat) : option nat :=
  if JS.startsWith (drop i s) p then Some i
  else match i with
       | O => None
       | S i' => lastIndexFrom s p i'
       end.

(** [s.lastIndexOf(p)]; [None] is -1. *)
Definition lastIndexOf (s p : JS.str) : option nat :=
  if (length s <? length p)%nat then None
  else lastIndexFrom s p (length s - length p).

(** The body of the loop of [extractNamespaceFromDocument] for one line:
    the namespace it returns, or [None] to go on to the next line. *)
Definition namespaceOfLine (line : JS.str) : option JS.str :=
  let trimmed := JS.trim line in
  if JS.startsWith trimmed (JS.lit "::")
     && (JS.endsWith trimmed (JS.lit " ns") || JS.includes trimmed (JS.lit "#"))
  then
    let nsEnd := match indexOf trimmed 35 with
                 | Some i => Some i
                 | None => lastIndexOf trimmed (JS.lit " ns")
                 end in
    match nsEnd with
    | Some n =>
        if (0 <? n)%nat then
          let ns := JS.trim (take n trimmed) in
          if JS.startsWith ns (JS.lit "::") then Some ns else None
        else None
    | None => None
    end
  else None.

Fixpoint firstNamespace (lines : list JS.str) : option JS.str :=
  match lines with
  | [] => None
  | line :: rest =>
      match namespaceOfLine line with
      | Some ns => Some ns
      | None => firstNamespace rest
      end
  end.

(** [text] is [document.getText()]; [None] is [null]. *)
Definition extractNamespaceFromDocument (text : JS.str) : option JS.str :=
  firstNamespace (JS.split (N.eqb 10) text).

End Namespace.

(** ** The REPL terminal *)
Module Repl.

(** The terminals that are open, each with the texts sent to it in order,
    the module variable [replTerminal], and the texts [sendToRepl] holds
    back until its 1.5 s timer runs out. *)
Record Host := {
  terminals : gmap nat (list JS.str);
  replTerminal : option nat;
  pending : list JS.str
}.

(** [terminal.sendText(text)]. *)
Definition sendText (t : nat) (text : JS.str) (h : Host) : Host :=
  {| terminals := alter (λ sent, sent ++ [text]) t (terminals h);
     replTerminal := replTerminal h;
     pending := pending h |}.

(** [startRepl] with the configured command path.  An existing REPL
    terminal is shown again; otherwise a terminal is created, the [repl]
    command is sent to it, and its closing is tracked. *)
Definition startRepl (commandPath : JS.str) (h : Host) : Host :=
  match replTerminal h with
  | Some _ => h
  | None =>
      let t := fresh (dom (terminals h)) in
      sendText t (commandPath ++ JS.lit " repl")
        {| terminals := <[t := []]> (terminals h);
           replTerminal := Some t;
           pending := pending h |}
  end.

(** [sendToRepl(text)]. *)
Definition sendToRepl (commandPath text : JS.str) (h : Host) : Host :=
  match replTerminal h with
  | None =>
      let h := startRepl commandPath h in
      {| terminals := terminals h; replTerminal := replTerminal h;
         pending := pending h ++ [text] |}
  | Some t => sendText t text h
  end.

(** What happens around the REPL: the two functions are called, the oldest
    timer of [sendToRepl] runs out, the user closes a terminal. *)
Inductive Event :=
  | StartRepl
  | SendToRepl (text : JS.str)
  | TimerFires
  | CloseTerminal (t : nat).

Definition step (commandPath : JS.str) (h : Host) (ev : Event) : Host :=
  match ev with
  | StartRepl => startRepl commandPath h
  | SendToRepl text => sendToRepl commandPath text h
  | TimerFires =>
      match pending h with
      | [] => h
      | text :: rest =>
          let h := {| terminals := terminals h; replTerminal := replTerminal h;
                      pending := rest |} in
          match replTerminal h with
          | Some t => sendText t text h
          | None => h
          end
      end
  | CloseTerminal t =>
      {| terminals := delete t (terminals h);
         replTerminal := if bool_decide (replTerminal h = Some t) then None
                         else replTerminal h;
         pending := pending h |}
  end.

Definition run (commandPath : JS.str) (evs : list Event) (h : Host) : Host :=
  fold_left (step commandPath) evs h.

(** The variable [replTerminal], when set, names an open terminal. *)
Definition tracked (h : Host) : Prop :=
  ∀ t, replTerminal h = Some t → is_Some (terminals h !! t).

Definition initial : Host :=
  {| terminals := ∅; replTerminal := None; pending := [] |}.

End Repl.

(** ** The commands *)
Module Commands.

(** [hot.stopAnalyzer]: the client is dropped and marked not running. *)
Definition stopAnalyzer (env : Eval.Env) : Eval.Env :=
  if Eval.client env then
    {| Eval.client := false; Eval.isRunning := false;
       Eval.channel := Eval.channel env; Eval.commandPath := Eval.commandPath env;
       Eval.cwd := Eval.cwd env; Eval.sendRequest := Eval.sendRequest env;
       Eval.execFile := Eval.execFile env |}
  else env.

(** The handler [startClient] gives [client.onDidChangeState]: 1 is
    Starting, 2 is Running, 3 is Stopped. *)
Definition onDidChangeState (newState : Z) (env : Eval.Env) : Eval.Env :=
  {| Eval.client := Eval.client env; Eval.isRunning := (newState =? 2)%Z;
     Eval.channel := Eval.channel env; Eval.commandPath := Eval.commandPath env;
     Eval.cwd := Eval.cwd env; Eval.sendRequest := Eval.sendRequest env;
     Eval.execFile := Eval.execFile env |}.

(** The text and the colour of the annotation [showInlineResult] builds
    when its [result] argument may be [undefined] ([None]): without side
    output to show, [displayResult.replace] is then called on [undefined]
    and throws. *)
Definition inlineAnnotation (result : option JS.str) (isError : bool)
    (stdout : option JS.str) : Form.outcome (JS.str * Render.ThemeColor) :=
  let color := if isError then Render.errorForeground else Render.terminalAnsiGreen in
  match result with
  | Some r => Form.Value (Render.displayedText r stdout, color)
  | None =>
      if Render.hasOutput stdout
      then Form.Value (Render.displayedText [] stdout, color)
      else Form.Thrown
             (JS.lit "Cannot read properties of undefined (reading 'replace')")
  end.

(** The progress callback of [hot.evalSelection] and [hot.evalTopLevelForm]
    up to the annotation: the code is evaluated and
    [showInlineResult(editor, range, result.success ? result.result :
    result.error, !result.success, result.stdout)] is called. *)
Definition evalAndAnnotate (env : Eval.Env) (code : JS.str)
    (namespace fileUri : option JS.str)
    : Form.outcome (JS.str * Render.ThemeColor) :=
  match (Eval.evaluateHotCode env code namespace fileUri).1 with
  | Eval.Fulfilled r =>
      inlineAnnotation
        (if Eval.success r then Some (Eval.result r) else Eval.error r)
        (negb (Eval.success r)) (Eval.stdout r)
  | Eval.Rejected e => Form.Thrown (Child.message e)
  end.

(** The text left when the host applies one replace edit. *)
Definition applyEdit (text : JS.str) (e : Fmt.TextEdit) : JS.str :=
  take (Fmt.rangeStart e) text ++ Fmt.newText e ++ drop (Fmt.rangeEnd e) text.

(** The message [hot.formatDocument] shows for the edits it got. *)
Definition formatMessage (edits : list Fmt.TextEdit) : JS.str :=
  if (0 <? length edits)%nat then JS.lit "Hot file formatted."
  else JS.lit "File already formatted.".

End Commands.

(** ** More sample inputs *)
Module MoreSamples.

(** A formatter that rewrites the file to the text [x 1] and exits with
    code 0. *)
Definition fmtRewrites : Fmt.Env :=
  {| Fmt.tmpFile := JS.lit "/tmp/hot-fmt-1.hot";
     Fmt.commandPath := JS.lit "hot";
     Fmt.channel := true;
     Fmt.writeFault := None;
     Fmt.readFault := None;
     Fmt.execFile := λ _ args _ fs,
       (Child.ExitZero [] [],
        <[JS.lit "/tmp/hot-fmt-1.hot" := JS.lit "x 1"]> fs) |}.

(** The same formatter on a file system whose reads fail. *)
Definition fmtUnreadable : Fmt.Env :=
  {| Fmt.tmpFile := JS.lit "/tmp/hot-fmt-1.hot";
     Fmt.commandPath := JS.lit "hot";
     Fmt.channel := true;
     Fmt.writeFault := None;
     Fmt.readFault := Some {| Child.message := JS.lit "EIO: i/o error, read" |};
     Fmt.execFile := λ _ args _ fs,
       (Child.ExitZero [] [],
        <[JS.lit "/tmp/hot-fmt-1.hot" := JS.lit "x 1"]> fs) |}.

(** A running client whose server answers every request. *)
Definition serverUp : Eval.Env :=
  {| Eval.client := true; Eval.isRunning := true; Eval.channel := true;
     Eval.commandPath := JS.lit "hot"; Eval.cwd := JS.lit "/work";
     Eval.sendRequest := λ _ _,
       Eval.Responds (Some {| Eval.success := true; Eval.result := JS.lit "2";
                              Eval.error := None; Eval.namespace := None;
                              Eval.stdout := None |});
     Eval.execFile := λ _ _ _ _, Child.ExitZero (JS.lit "2" ++ [10%N]) [] |}.

(** A running client whose server reports a failure without an error text
    and without side output. *)
Definition serverFailsSilently : Eval.Env :=
  {| Eval.client := true; Eval.isRunning := true; Eval.channel := true;
     Eval.commandPath := JS.lit "hot"; Eval.cwd := JS.lit "/work";
     Eval.sendRequest := λ _ _,
       Eval.Responds (Some {| Eval.success := false; Eval.result := [];
                              Eval.error := None; Eval.namespace := None;
                              Eval.stdout := None |});
     Eval.execFile := λ _ _ _ _, Child.ExitZero (JS.lit "2" ++ [10%N]) [] |}.

End MoreSamples.

(* ===================================================================== *)
(** * Part II: theorems                                                    *)
(* ===================================================================== *)

(** ** JavaScript strings *)

Lemma trimStart_spec (s : JS.str) :
  ∃ l, s = l ++ JS.trimStart s
       ∧ Forall (λ c, JS.isWhiteSpace c = true) l
       ∧ ∀ c, head (JS.trimStart s) = Some c → JS.isWhiteSpace c = false.
Proof.
  induction s as [|c s (l & Hs & Hl & Hh)]; simpl.
  - exists []. repeat split; [constructor | discriminate].
  - destruct (JS.isWhiteSpace c) eqn:Hc.
    + exists (c :: l). repeat split; [simpl; congruence | now constructor | exact Hh].
    + exists []. repeat split; [constructor|]. simpl. intros ? [= <-]. exact Hc.
Qed.

Lemma last_rev (s : JS.str) : last (rev s) = head s.
Proof. destruct s as [|c s]; [reflexivity|]. simpl. apply last_snoc. Qed.

Lemma trimEnd_spec (s : JS.str) :
  ∃ t, s = JS.trimEnd s ++ t
       ∧ Forall (λ c, JS.isWhiteSpace c = true) t
       ∧ ∀ c, last (JS.trimEnd s) = Some c → JS.isWhiteSpace c = false.
Proof.
  unfold JS.trimEnd. destruct (trimStart_spec (rev s)) as (l & Hs & Hl & Hh).
  exists (rev l). repeat split.
  - rewrite <- rev_app_distr, <- Hs. symmetry. apply rev_involutive.
  - apply Forall_forall. intros c Hc. rewrite Forall_forall in Hl.
    apply Hl. apply list_elem_of_In. apply list_elem_of_In in Hc.
    now apply in_rev.
  - intros c. rewrite last_rev. apply Hh.
Qed.

(** [trim] removes white space at both ends and nothing else. *)
Lemma trim_spec (s : JS.str) :
  ∃ l t, s = l ++ JS.trim s ++ t
         ∧ Forall (λ c, JS.isWhiteSpace c = true) l
         ∧ Forall (λ c, JS.isWhiteSpace c = true) t
         ∧ (∀ c, head (JS.trim s) = Some c → JS.isWhiteSpace c = false)
         ∧ (∀ c, last (JS.trim s) = Some c → JS.isWhiteSpace c = false).
Proof.
  unfold JS.trim.
  destruct (trimStart_spec s) as (l & Hs & Hl & Hh).
  destruct (trimEnd_spec (JS.trimStart s)) as (t & Hu & Ht & Hlast).
  exists l, t. repeat split; try assumption.
  - now rewrite <- Hu.
  - intros c Hc. apply Hh. rewrite Hu.
    destruct (JS.trimEnd (JS.trimStart s)); [discriminate | exact Hc].
Qed.

(** ** Version comparison *)

Example compareSemver_039_040 :
  Semver.compareSemver (JS.lit "0.3.9") (JS.lit "0.4.0") = (-1)%Z.
Proof. reflexivity. Qed.

Lemma split_nonempty (sep : N → bool) (s : JS.str) : JS.split sep s ≠ [].
Proof.
  destruct s as [|c s]; simpl; [discriminate|].
  destruct (sep c); [discriminate|].
  destruct (JS.split sep s); discriminate.
Qed.

Lemma split_app_sep (sep : N → bool) (a b : JS.str) (c : N) :
  sep c = true →
  JS.split sep (a ++ c :: b) = JS.split sep a ++ JS.split sep b.
Proof.
  intros Hc. induction a as [|x a IH]; simpl.
  - now rewrite Hc.
  - rewrite IH. destruct (sep x); [reflexivity|].
    pose proof (split_nonempty sep a) as Hne.
    destruct (JS.split sep a); [congruence | reflexivity].
Qed.

Lemma split_no_sep (sep : N → bool) (s : JS.str) :
  Forall (Forall (λ c, sep c = false)) (JS.split sep s).
Proof.
  induction s as [|c s IH]; simpl.
  - repeat constructor.
  - destruct (sep c) eqn:Hc.
    + constructor; [constructor | exact IH].
    + destruct (JS.split sep s) as [|h t]; [repeat constructor; exact Hc|].
      inversion IH; subst. constructor; [constructor; assumption | assumption].
Qed.

Lemma trimStart_Forall (P : N → Prop) (s : JS.str) :
  Forall P s → Forall P (JS.trimStart s).
Proof.
  induction 1 as [|c s Hc Hs IH]; simpl; [constructor|].
  destruct (JS.isWhiteSpace c); [exact IH | now constructor].
Qed.

Lemma digit_nonneg (c : N) (d : Z) : JS.digit c = Some d → (0 ≤ d)%Z.
Proof.
  unfold JS.digit. destruct (_ && _); [|discriminate].
  intros [= <-]. lia.
Qed.

Lemma digits_nonneg (s : JS.str) (acc : Z) : (0 ≤ acc)%Z → (0 ≤ JS.digits s acc)%Z.
Proof.
  revert acc. induction s as [|c s IH]; simpl; intros acc Hacc; [exact Hacc|].
  destruct (JS.digit c) as [d|] eqn:Hd; [|exact Hacc].
  apply IH. apply digit_nonneg in Hd. lia.
Qed.

Lemma digits_tail_nonneg (s : JS.str) :
  (0 ≤ JS.orZero
         match s with
         | c :: _ =>
             match JS.digit c with
             | Some _ => Some (1 * JS.digits s 0)%Z
             | None => None
             end
         | [] => None
         end)%Z.
Proof.
  destruct s as [|c s]; [simpl; lia|].
  destruct (JS.digit c) eqn:Hd; [|simpl; lia].
  pose proof (digits_nonneg (c :: s) 0 ltac:(lia)) as H.
  unfold JS.orZero. lia.
Qed.

(** A component without a hyphen never parses to a negative number. *)
Lemma parseInt_nonneg (x : JS.str) :
  Forall (λ c, Semver.isDashOrDot c = false) x →
  (0 ≤ JS.orZero (JS.parseInt x))%Z.
Proof.
  intros Hx. apply (trimStart_Forall _ _) in Hx.
  unfold JS.parseInt. destruct (JS.trimStart x) as [|c r]; [simpl; lia|].
  inversion Hx as [|? ? Hc Hr]; subst.
  destruct (c =? 45)%N eqn:E45.
  { apply N.eqb_eq in E45. subst c. discriminate Hc. }
  destruct (c =? 43)%N;
    [apply (digits_tail_nonneg r) | apply (digits_tail_nonneg (c :: r))].
Qed.

Lemma parts_app_sep (v tag : JS.str) (c : N) :
  Semver.isDashOrDot c = true →
  Semver.parts (v ++ c :: tag)
  = Semver.parts v ++ ((λ x, JS.orZero (JS.parseInt x)) <$> JS.split Semver.isDashOrDot tag).
Proof.
  intros Hc. unfold Semver.parts.
  assert (Hs : Semver.stripV (v ++ c :: tag) = Semver.stripV v ++ c :: tag).
  { destruct v as [|x v]; simpl; [|destruct (x =? 118)%N; reflexivity].
    destruct (c =? 118)%N eqn:E; [|reflexivity].
    apply N.eqb_eq in E. subst c. discriminate Hc. }
  rewrite Hs, (split_app_sep _ _ _ _ Hc), fmap_app. reflexivity.
Qed.

Lemma forallb_fmap {A B} (f : B → bool) (g : A → B) (l : list A) :
  forallb f (g <$> l) = forallb (λ x, f (g x)) l.
Proof. induction l as [|x l IH]; csimpl; [reflexivity | now rewrite IH]. Qed.

Lemma compareFrom_ext (pa pb pa' pb' : list Z) (n i i' : nat) :
  (∀ j, nth (i + j) pa 0%Z = nth (i' + j) pa' 0%Z) →
  (∀ j, nth (i + j) pb 0%Z = nth (i' + j) pb' 0%Z) →
  Semver.compareFrom pa pb i n = Semver.compareFrom pa' pb' i' n.
Proof.
  revert i i'. induction n as [|n IH]; intros i i' Ha Hb; simpl; [reflexivity|].
  pose proof (Ha 0%nat) as Ha0. pose proof (Hb 0%nat) as Hb0.
  rewrite !Nat.add_0_r in Ha0, Hb0. rewrite Ha0, Hb0.
  rewrite (IH (S i) (S i')); [reflexivity| |].
  - intros j. specialize (Ha (S j)). now rewrite !Nat.add_succ_r in Ha.
  - intros j. specialize (Hb (S j)). now rewrite !Nat.add_succ_r in Hb.
Qed.

Lemma compareFrom_extra (extra : list Z) :
  Forall (λ z, (0 ≤ z)%Z) extra →
  Semver.compareFrom extra [] 0 (length extra)
  = if forallb (λ z, (z =? 0)%Z) extra then 0%Z else 1%Z.
Proof.
  induction 1 as [|e es He Hes IH]; [reflexivity|].
  cbn [length Semver.compareFrom nth forallb].
  destruct (Z.ltb_spec e 0); [lia|].
  rewrite Z.gtb_ltb. destruct (Z.ltb_spec 0 e) as [Hpos|Hz].
  - destruct (Z.eqb_spec e 0); [lia | reflexivity].
  - destruct (Z.eqb_spec e 0); [|lia]. simpl.
    rewrite <- IH. apply compareFrom_ext; intros j; simpl; now destruct j.
Qed.

Lemma compareFrom_app (pa extra : list Z) :
  Forall (λ z, (0 ≤ z)%Z) extra →
  Semver.compareFrom (pa ++ extra) pa 0 (length pa + length extra)
  = if forallb (λ z, (z =? 0)%Z) extra then 0%Z else 1%Z.
Proof.
  intros Hex. induction pa as [|x pa IH]; simpl.
  - now apply compareFrom_extra.
  - rewrite Z.ltb_irrefl, Z.gtb_ltb, Z.ltb_irrefl. rewrite <- IH.
    apply compareFrom_ext; intros j; reflexivity.
Qed.

(** Appending a separator and further components to a version never makes
    it smaller: the result is 0 when every added component parses to 0, and
    1 otherwise. *)
Lemma compareSemver_suffix (v tag : JS.str) (c : N) :
  Semver.isDashOrDot c = true →
  Semver.compareSemver (v ++ c :: tag) v
  = if forallb (λ x, (JS.orZero (JS.parseInt x) =? 0)%Z)
         (JS.split Semver.isDashOrDot tag)
    then 0%Z else 1%Z.
Proof.
  intros Hc. unfold Semver.compareSemver.
  rewrite (parts_app_sep _ _ _ Hc), length_app.
  replace (Nat.max _ _) with
    (length (Semver.parts v)
     + length ((λ x, JS.orZero (JS.parseInt x)) <$> JS.split Semver.isDashOrDot tag))%nat
    by lia.
  rewrite compareFrom_app.
  - now rewrite forallb_fmap.
  - apply Forall_fmap. eapply Forall_impl; [apply split_no_sep|].
    intros x Hx. now apply parseInt_nonneg.
Qed.

(** C10, as stated, fails on the code: a pre-release whose tag holds a
    numeric component does not compare equal to the release.  The hyphen and
    the dot both split, so "1.0.0-rc.1" has the components 1, 0, 0, 0, 1 and
    compares greater than "1.0.0". *)
Lemma compareSemver_rc_counterexample :
  Semver.compareSemver (JS.lit "1.0.0-rc.1") (JS.lit "1.0.0") = 1%Z
  ∧ Semver.compareSemver (JS.lit "1.0.0-rc.1") (JS.lit "1.0.0") ≠ 0%Z.
Proof. split; [reflexivity | vm_compute; discriminate]. Qed.

(** C10 (amended): [compareSemver] drops one leading [v], splits at dots and
    hyphens and reads each component with [parseInt], a component without
    leading digits and a missing component counting as 0.  A version followed
    by a hyphen (or a dot) and further components compares equal to the
    version when every added component reads as 0, as in
    [compareSemver("1.0.0-alpha", "1.0.0") = 0], and greater otherwise; in
    neither case smaller, so an installed pre-release of the latest version
    triggers no update notification. *)
Theorem compareSemver_prerelease (v tag data : JS.str) :
  Semver.parts (118%N :: v)
  = ((λ x, JS.orZero (JS.parseInt x)) <$> JS.split Semver.isDashOrDot v)
  ∧ Semver.parts (JS.lit "v1.0.0-alpha") = [1; 0; 0; 0]%Z
  ∧ Semver.compareSemver (JS.lit "1.0") (JS.lit "1.0.0") = 0%Z
  ∧ Semver.compareSemver (JS.lit "1.0.0-alpha") (JS.lit "1.0.0") = 0%Z
  ∧ Semver.compareSemver (v ++ 45%N :: tag) v
    = (if forallb (λ x, (JS.orZero (JS.parseInt x) =? 0)%Z)
            (JS.split Semver.isDashOrDot tag)
       then 0%Z else 1%Z)
  ∧ Semver.compareSemver (v ++ 46%N :: tag) v
    = (if forallb (λ x, (JS.orZero (JS.parseInt x) =? 0)%Z)
            (JS.split Semver.isDashOrDot tag)
       then 0%Z else 1%Z)
  ∧ Semver.doVersionCheck (Some (JS.trim data ++ 45%N :: tag)) data = false.
Proof.
  do 4 (split; [reflexivity|]).
  pose proof (compareSemver_suffix v tag 45 eq_refl) as H45.
  pose proof (compareSemver_suffix v tag 46 eq_refl) as H46.
  split; [exact H45|]. split; [exact H46|].
  unfold Semver.doVersionCheck.
  destruct (_ || _); [reflexivity|].
  rewrite (compareSemver_suffix (JS.trim data) tag 45 eq_refl).
  now destruct (forallb _ _).
Qed.

(** ** The form extractor *)

Section FormExtractor.
Import Form.
Variable d : TextDocument.

Local Abbreviation inBounds := (Form.inBounds d).

Lemma lineAt_lookup (i : nat) (t : JS.str) (tr : list nat) :
  lines d !! i = Some t → lineAt d i tr = (Value t, tr ++ [i]).
Proof. intros H. unfold lineAt. now rewrite H. Qed.

Lemma inBounds_snoc (tr : list nat) (i : nat) :
  inBounds tr → (i < lineCount d)%nat → inBounds (tr ++ [i]).
Proof. intros Htr Hi. apply Forall_app. split; [exact Htr | now constructor]. Qed.

Lemma line_exists (i : nat) : (i < lineCount d)%nat → ∃ t, lines d !! i = Some t.
Proof. intros Hi. apply lookup_lt_is_Some_2 in Hi. destruct Hi as [t Ht]. eauto. Qed.

(** The upward scan returns a line of the document and reads only lines of
    the document. *)
Lemma findStart_total (i startLine : nat) (tr : list nat) :
  (i < lineCount d)%nat → (startLine < lineCount d)%nat →
  ∃ s tr', findStart d i startLine tr = (Value s, tr')
           ∧ (s < lineCount d)%nat ∧ (inBounds tr → inBounds tr').
Proof.
  revert tr. induction i as [|i IH]; intros tr Hi Hs.
  - destruct (line_exists 0 Hi) as [t Ht]. simpl. unfold bind.
    rewrite (lineAt_lookup _ _ _ Ht).
    assert (inBounds tr → inBounds (tr ++ [0%nat]))
      by (intros; now apply inBounds_snoc).
    destruct (isBlankOrComment t); [unfold ret; eauto 6|].
    destruct (startsDefinition t); unfold ret; eauto 6.
  - destruct (line_exists (S i) Hi) as [t Ht]. simpl. unfold bind.
    rewrite (lineAt_lookup _ _ _ Ht).
    assert (Hsnoc : inBounds tr → inBounds (tr ++ [S i]))
      by (intros; now apply inBounds_snoc).
    assert (Hrec : ∃ s tr', findStart d i startLine (tr ++ [S i]) = (Value s, tr')
                            ∧ (s < lineCount d)%nat ∧ (inBounds tr → inBounds tr')).
    { destruct (IH (tr ++ [S i])) as (s & tr' & Heq & Hlt & Hb); [lia|assumption|].
      exists s, tr'. repeat split; auto. }
    destruct (isBlankOrComment t); [exact Hrec|].
    destruct (startsDefinition t); [unfold ret; eauto 6 | exact Hrec].
Qed.

Lemma countsUpTo_start (startLine : nat) : countsUpTo d startLine startLine = noCounts.
Proof. unfold countsUpTo. now rewrite Nat.sub_diag. Qed.

Lemma countsUpTo_S (startLine i : nat) (t : JS.str) :
  (startLine ≤ i)%nat → lines d !! i = Some t →
  countsUpTo d startLine (S i) = countLine (countsUpTo d startLine i) t.
Proof.
  intros Hle Ht. unfold countsUpTo.
  replace (S i - startLine)%nat with (S (i - startLine)) by lia.
  rewrite (take_S_r _ _ t).
  - now rewrite fold_left_app.
  - rewrite lookup_drop. rewrite <- Ht. f_equal. lia.
Qed.

(** One iteration of the downward loop. *)
Lemma findEnd_step (startLine i n : nat) (st : Counts) (endLine : nat)
    (t : JS.str) (tr : list nat) :
  lines d !! i = Some t →
  findEnd d startLine i (S n) st endLine tr
  = if bodyClosed (countLine st t) then (Value i, tr ++ [i])
    else if (startLine <? i)%nat && beginsUnit t then (Value (i - 1)%nat, tr ++ [i])
    else findEnd d startLine (S i) n (countLine st t) i (tr ++ [i]).
Proof.
  intros Ht. simpl. unfold bind. rewrite (lineAt_lookup _ _ _ Ht).
  destruct (bodyClosed _); [reflexivity|].
  destruct (_ && _); reflexivity.
Qed.

Lemma stopAt_lookup (startLine i : nat) (t : JS.str) :
  (startLine ≤ i)%nat → lines d !! i = Some t →
  stopAt d startLine i
  = if bodyClosed (countLine (countsUpTo d startLine i) t) then Some i
    else if (startLine <? i)%nat && beginsUnit t then Some (i - 1)%nat
    else None.
Proof.
  intros Hle Ht. unfold stopAt, countsAt.
  now rewrite Ht, (countsUpTo_S _ _ _ Hle Ht).
Qed.

(** The loop invariant of the downward scan: entered at line [i] with the
    counters of the lines before it and no stop so far, it returns the end
    line [endsAt] describes. *)
Lemma findEnd_inv (startLine n i : nat) (endLine : nat) (tr : list nat) :
  (i + n = lineCount d)%nat → (startLine ≤ i)%nat → (startLine < lineCount d)%nat →
  (∀ j, startLine ≤ j < i → stopAt d startLine j = None) →
  (startLine < i → endLine = i - 1)%nat →
  ∃ e tr', findEnd d startLine i n (countsUpTo d startLine i) endLine tr = (Value e, tr')
           ∧ endsAt d startLine e ∧ (startLine ≤ e < lineCount d)%nat
           ∧ (inBounds tr → inBounds tr').
Proof.
  revert i endLine tr. induction n as [|n IH]; intros i endLine tr Hn Hle Hs Hnone Hend.
  - assert (i = lineCount d) by lia. subst i.
    exists endLine, tr. rewrite (Hend Hs). simpl. unfold ret.
    repeat split; try lia; try assumption; [|auto].
    right. split; [exact Hnone | reflexivity].
  - assert (Hi : (i < lineCount d)%nat) by lia.
    destruct (line_exists i Hi) as [t Ht].
    rewrite (findEnd_step _ _ _ _ _ t _ Ht).
    pose proof (stopAt_lookup startLine i t Hle Ht) as Hstop.
    assert (Hsnoc : inBounds tr → inBounds (tr ++ [i]))
      by (intros; now apply inBounds_snoc).
    destruct (bodyClosed _) eqn:Hclosed.
    { exists i, (tr ++ [i]). repeat split; try lia; try assumption.
      left. exists i. repeat split; try lia; assumption. }
    destruct ((startLine <? i)%nat && beginsUnit t) eqn:Hunit.
    { apply andb_prop in Hunit as Hu. destruct Hu as [Hlt _].
      apply Nat.ltb_lt in Hlt.
      exists (i - 1)%nat, (tr ++ [i]). repeat split; try lia; try assumption.
      left. exists i. repeat split; try lia; assumption. }
    rewrite <- (countsUpTo_S _ _ _ Hle Ht).
    destruct (IH (S i) i (tr ++ [i])) as (e & tr' & Heq & Hends & He & Hb);
      try lia.
    { intros j Hj. destruct (decide (j = i)) as [->|Hne]; [exact Hstop|].
      apply Hnone. lia. }
    exists e, tr'. repeat split; try lia; auto.
Qed.

(** The downward scan from a line of the document. *)
Lemma findEnd_total (startLine endLine : nat) (tr : list nat) :
  (startLine < lineCount d)%nat →
  ∃ e tr', findEnd d startLine startLine (lineCount d - startLine) noCounts endLine tr
           = (Value e, tr')
           ∧ endsAt d startLine e ∧ (startLine ≤ e < lineCount d)%nat
           ∧ (inBounds tr → inBounds tr').
Proof.
  intros Hs. rewrite <- (countsUpTo_start startLine).
  apply findEnd_inv; try lia.
Qed.

(** The extractor returns, a form or [null], and reads only lines of the
    document; the range of a form it returns runs over lines of the
    document, from column 0 to the end of its last line. *)
Lemma getTopLevelForm_returns (position : Position) :
  (line position < lineCount d)%nat →
  ∃ r tr, getTopLevelForm d position [] = (Value r, tr) ∧ inBounds tr
          ∧ ∀ f, r = Some f →
                 (line (start (range f)) ≤ line (stop (range f)) < lineCount d)%nat
                 ∧ character (start (range f)) = 0%nat
                 ∧ (length <$> lines d !! line (stop (range f)))
                   = Some (character (stop (range f))).
Proof.
  intros Hpos. unfold getTopLevelForm, bind.
  destruct (findStart_total (line position) (line position) [] Hpos Hpos)
    as (s & tr1 & -> & Hs & Htr1).
  destruct (findEnd_total s (line position) tr1 Hs)
    as (e & tr2 & -> & _ & He & Htr2).
  destruct (line_exists e) as [t Ht]; [lia|].
  rewrite (lineAt_lookup _ _ _ Ht).
  assert (inBounds (tr2 ++ [e])).
  { apply inBounds_snoc; [|lia]. apply Htr2, Htr1. constructor. }
  destruct (_ || _); unfold ret; eexists _, _; (split; [reflexivity|]);
    (split; [assumption|]); intros f [= <-]; cbn [range start stop line character].
  repeat split; try lia. now rewrite Ht.
Qed.

(** With braces that never balance, only a later line that begins a unit
    stops the scan. *)
Lemma stopAt_unbalanced (startLine i : nat) (t : JS.str) :
  unbalancedFrom d startLine → (startLine ≤ i)%nat → lines d !! i = Some t →
  stopAt d startLine i
  = if (startLine <? i)%nat && beginsUnit t then Some (i - 1)%nat else None.
Proof.
  intros Hun Hle Ht. unfold stopAt. rewrite Ht.
  assert (Hi : (i < lineCount d)%nat) by (apply lookup_lt_is_Some_1; eauto).
  specialize (Hun i ltac:(lia)).
  unfold bodyClosed. destruct (Z.eqb_spec (braceCount (countsAt d startLine i)) 0);
    [contradiction|].
  now rewrite andb_false_r.
Qed.

Lemma endsAt_unbalanced (startLine e : nat) :
  (startLine < lineCount d)%nat →
  unbalancedFrom d startLine → endsAt d startLine e →
  e = match nextUnit d startLine with
      | Some i => (i - 1)%nat
      | None => (lineCount d - 1)%nat
      end.
Proof.
  intros Hs Hun Hends. unfold nextUnit.
  destruct (list_find _ _) as [[k t]|] eqn:Hfind; simpl.
  - apply list_find_Some in Hfind. destruct Hfind as (Hk & Ht & Hmin).
    rewrite lookup_drop in Hk.
    assert (Hstop : stopAt d startLine (S startLine + k) = Some (S startLine + k - 1)%nat).
    { rewrite (stopAt_unbalanced _ _ t Hun); [|lia|exact Hk].
      rewrite Ht. replace (startLine <? S startLine + k)%nat with true; [reflexivity|].
      symmetry. apply Nat.ltb_lt. lia. }
    assert (Hk' : (S startLine + k < lineCount d)%nat)
      by (apply lookup_lt_is_Some_1; eauto).
    destruct Hends as [(i & Hi & Hnone & Hsome)|[Hnone _]].
    + destruct (line_exists i) as [ti Hti]; [lia|].
      rewrite (stopAt_unbalanced _ _ ti Hun) in Hsome; [|lia|exact Hti].
      destruct (startLine <? i)%nat eqn:Hlt; simpl in Hsome; [|discriminate].
      apply Nat.ltb_lt in Hlt.
      destruct (beginsUnit ti) eqn:Hu; [|discriminate]. injection Hsome as <-.
      destruct (Nat.lt_trichotomy i (S startLine + k)) as [Hlt'|[->|Hgt]].
      * exfalso. apply (Hmin (i - S startLine)%nat ti); [|lia|exact Hu].
        rewrite lookup_drop. rewrite <- Hti. f_equal. lia.
      * simpl. lia.
      * rewrite Hnone in Hstop; [discriminate | lia].
    + rewrite Hnone in Hstop; [discriminate | lia].
  - apply list_find_None in Hfind.
    destruct Hends as [(i & Hi & Hnone & Hsome)|[_ ->]]; [|reflexivity].
    exfalso. destruct (line_exists i) as [ti Hti]; [lia|].
    rewrite (stopAt_unbalanced _ _ ti Hun) in Hsome; [|lia|exact Hti].
    destruct (startLine <? i)%nat eqn:Hlt; simpl in Hsome; [|discriminate].
    apply Nat.ltb_lt in Hlt.
    destruct (beginsUnit ti) eqn:Hu; [|discriminate].
    rewrite Forall_lookup in Hfind.
    apply (Hfind (i - S startLine)%nat ti); [|exact Hu].
    rewrite lookup_drop. rewrite <- Hti. f_equal. lia.
Qed.

End FormExtractor.

(** C2, as stated, fails on the code: the scan does not stop where the brace
    nesting is back at zero while a parenthesis is still open.  On
    [docParens] the braces of the default value close on line 0, where the
    specification's rule ends the form, and the code reads on to line 3. *)
Lemma endLine_braces_only_counterexample :
  Form.specEndLine Samples.docParens 0 = 0%nat
  ∧ (Form.findEnd Samples.docParens 0 0 (Form.lineCount Samples.docParens - 0)
       Form.noCounts 0 []).1 = Form.Value 3%nat.
Proof. split; vm_compute; reflexivity. Qed.

(** C2 (amended): from a start line of the document the downward scan
    returns the end line decided by the first line at which it stops: that
    line when at its end a brace has been seen, the brace count is zero and
    the parenthesis count is zero or negative; otherwise, for a line after
    the start line that begins a top-level unit, the line before it; and the
    last line of the document when no line stops the scan.  On the
    three-line scenario with the cursor on the body line the extractor
    returns the full three-line span. *)
Theorem findEnd_first_stop (d : Form.TextDocument) (startLine endLine : nat)
    (tr : list nat) :
  (startLine < Form.lineCount d)%nat →
  (∃ e tr',
      Form.findEnd d startLine startLine (Form.lineCount d - startLine)
        Form.noCounts endLine tr = (Form.Value e, tr')
      ∧ Form.endsAt d startLine e)
  ∧ (Form.getTopLevelForm Samples.doc3 {| Form.line := 1; Form.character := 2 |} []).1
    = Form.Value (Some
        {| Form.text := JS.lit "x fn (n: Int): Int {" ++ [10%N] ++ JS.lit "  n"
                        ++ [10%N] ++ JS.lit "}";
           Form.range :=
             {| Form.start := {| Form.line := 0; Form.character := 0 |};
                Form.stop := {| Form.line := 2; Form.character := 1 |} |} |}).
Proof.
  intros Hs. split; [|vm_compute; reflexivity].
  destruct (findEnd_total d startLine endLine tr Hs) as (e & tr' & Heq & Hends & _).
  eauto.
Qed.

(** The scan of the scenario document from its first line. *)
Lemma findEnd_first_stop_witness :
  (0 < Form.lineCount Samples.doc3)%nat
  ∧ ∃ e tr',
      Form.findEnd Samples.doc3 0 0 (Form.lineCount Samples.doc3 - 0)
        Form.noCounts 1 [] = (Form.Value e, tr')
      ∧ Form.endsAt Samples.doc3 0 e.
Proof.
  assert (H : (0 < Form.lineCount Samples.doc3)%nat) by (vm_compute; lia).
  split; [exact H|].
  exact (proj1 (findEnd_first_stop Samples.doc3 0 1 [] H)).
Defined.

Lemma docOpen_unbalanced : Form.unbalancedFrom Samples.docOpen 0.
Proof.
  intros i Hi. unfold Form.lineCount in Hi. simpl in Hi.
  destruct i as [|[|[|i]]]; [vm_compute; discriminate ..|lia].
Qed.

(** C8, as stated, fails on the code: with braces that never balance the
    scan does not always run to the end of the document.  In [docOpen] the
    body opened on line 0 is never closed; the scan stops at line 2, which
    begins the next unit, and the form ends at line 1, not at the last
    line. *)
Lemma unbalanced_scan_stops_early_counterexample :
  Form.unbalancedFrom Samples.docOpen 0
  ∧ (Form.lineCount Samples.docOpen - 1 = 2)%nat
  ∧ (Form.findEnd Samples.docOpen 0 0 (Form.lineCount Samples.docOpen - 0)
       Form.noCounts 0 []).1 = Form.Value 1%nat
  ∧ (Form.getTopLevelForm Samples.docOpen {| Form.line := 0; Form.character := 0 |} []).1
    = Form.Value (Some
        {| Form.text := JS.lit "f fn () {" ++ [10%N] ++ JS.lit "  1";
           Form.range :=
             {| Form.start := {| Form.line := 0; Form.character := 0 |};
                Form.stop := {| Form.line := 1; Form.character := 3 |} |} |}).
Proof.
  split; [exact docOpen_unbalanced|].
  repeat split; vm_compute; reflexivity.
Qed.

(** C8 (amended): for every document and every cursor on one of its lines
    the extractor returns, with a form or with [null], never throws, hands
    [lineAt] only indices of lines of the document, and the range of a form
    it returns lies within the document.  When the braces
    never balance the downward scan does not fail: it ends at the line
    before the next line that begins a top-level unit, and at the last line
    of the document when no such line follows. *)
Theorem getTopLevelForm_total (d : Form.TextDocument) (position : Form.Position)
    (startLine endLine : nat) (tr : list nat) :
  (Form.line position < Form.lineCount d)%nat →
  (∃ r tr0,
      Form.getTopLevelForm d position [] = (Form.Value r, tr0)
      ∧ Forall (λ i, (i < Form.lineCount d)%nat) tr0
      ∧ ∀ f, r = Some f →
             (Form.line (Form.start (Form.range f))
              ≤ Form.line (Form.stop (Form.range f)) < Form.lineCount d)%nat
             ∧ Form.character (Form.start (Form.range f)) = 0%nat
             ∧ (length <$> Form.lines d !! Form.line (Form.stop (Form.range f)))
               = Some (Form.character (Form.stop (Form.range f))))
  ∧ ((startLine < Form.lineCount d)%nat → Form.unbalancedFrom d startLine →
     ∃ e tr',
       Form.findEnd d startLine startLine (Form.lineCount d - startLine)
         Form.noCounts endLine tr = (Form.Value e, tr')
       ∧ e = match Form.nextUnit d startLine with
             | Some i => (i - 1)%nat
             | None => (Form.lineCount d - 1)%nat
             end).
Proof.
  intros Hpos. split; [exact (getTopLevelForm_returns d position Hpos)|].
  intros Hs Hun.
  destruct (findEnd_total d startLine endLine tr Hs) as (e & tr' & Heq & Hends & _).
  exists e, tr'. split; [exact Heq|].
  now apply endsAt_unbalanced.
Qed.

(** The unclosed body of [docOpen], with the cursor on its second line. *)
Lemma getTopLevelForm_total_witness :
  (Form.line {| Form.line := 1; Form.character := 0 |}
   < Form.lineCount Samples.docOpen)%nat
  ∧ (0 < Form.lineCount Samples.docOpen)%nat
  ∧ (∃ r tr0,
        Form.getTopLevelForm Samples.docOpen
          {| Form.line := 1; Form.character := 0 |} [] = (Form.Value r, tr0)
        ∧ Forall (λ i, (i < Form.lineCount Samples.docOpen)%nat) tr0
        ∧ ∀ f, r = Some f →
               (Form.line (Form.start (Form.range f))
                ≤ Form.line (Form.stop (Form.range f))
                < Form.lineCount Samples.docOpen)%nat
               ∧ Form.character (Form.start (Form.range f)) = 0%nat
               ∧ (length <$> Form.lines Samples.docOpen
                               !! Form.line (Form.stop (Form.range f)))
                 = Some (Form.character (Form.stop (Form.range f))))
  ∧ (∃ e tr',
        Form.findEnd Samples.docOpen 0 0 (Form.lineCount Samples.docOpen - 0)
          Form.noCounts 0 [] = (Form.Value e, tr')
        ∧ e = match Form.nextUnit Samples.docOpen 0 with
              | Some i => (i - 1)%nat
              | None => (Form.lineCount Samples.docOpen - 1)%nat
              end).
Proof.
  assert (Hpos : (Form.line {| Form.line := 1; Form.character := 0 |}
                  < Form.lineCount Samples.docOpen)%nat) by (vm_compute; lia).
  assert (Hs : (0 < Form.lineCount Samples.docOpen)%nat) by (vm_compute; lia).
  pose proof (getTopLevelForm_total Samples.docOpen
                {| Form.line := 1; Form.character := 0 |} 0 0 [] Hpos) as [Hret Hscan].
  split; [exact Hpos|]. split; [exact Hs|]. split; [exact Hret|].
  apply Hscan; [exact Hs|].
  intros i Hi. unfold Form.lineCount in Hi. simpl in Hi.
  destruct i as [|[|[|i]]]; [vm_compute; discriminate ..|lia].
Defined.

(** ** The result renderer *)

Example displayedText_plain :
  Render.displayedText (JS.lit "2") None = JS.lit "=> 2".
Proof. vm_compute. reflexivity. Qed.

Example displayedText_output :
  Render.displayedText (JS.lit "2") (Some (JS.lit "hi" ++ [10%N])) = JS.lit "hi => 2".
Proof. vm_compute. reflexivity. Qed.

Example displayedText_null :
  Render.displayedText (JS.lit "null") (Some (JS.lit "hi")) = JS.lit "hi".
Proof. vm_compute. reflexivity. Qed.

Lemma collapse_no_newline (text : JS.str) :
  Forall (λ c, c ≠ 10%N) (Render.collapse text).
Proof.
  unfold Render.collapse, JS.replaceNewlines.
  induction text as [|c text IH]; simpl; [constructor|].
  destruct (N.eqb_spec c 10).
  - repeat (constructor; [discriminate|]). exact IH.
  - constructor; assumption.
Qed.

Lemma truncate_no_newline (text : JS.str) :
  Forall (λ c, c ≠ 10%N) text → Forall (λ c, c ≠ 10%N) (Render.truncate text).
Proof.
  intros H. unfold Render.truncate. destruct (_ <? _)%nat; [|exact H].
  apply Forall_app. split; [now apply Forall_take|].
  constructor; [discriminate | constructor].
Qed.

Lemma truncate_length (text : JS.str) :
  (80 < length text)%nat → length (Render.truncate text) = 81%nat.
Proof.
  intros H. unfold Render.truncate.
  destruct (Nat.ltb_spec 80 (length text)); [|lia].
  rewrite length_app, length_take. cbn [length]. lia.
Qed.

Lemma displayedText_no_newline (result : JS.str) (stdout : option JS.str) :
  Forall (λ c, c ≠ 10%N) (Render.displayedText result stdout).
Proof.
  unfold Render.displayedText, Render.displayResult.
  pose proof (truncate_no_newline _ (collapse_no_newline (Render.combine result stdout))).
  destruct (JS.truthyOpt stdout); [assumption|].
  apply Forall_app. split; [|assumption].
  repeat (constructor; [discriminate|]). constructor.
Qed.

(** Side output with visible content: the trimmed side output, then
    [ => result] unless the result is empty or the text [null]. *)
Lemma displayedText_with_output (result out : JS.str) :
  Render.hasOutput (Some out) = true →
  Render.displayedText result (Some out)
  = Render.truncate (Render.collapse
      (JS.trim out
       ++ if JS.truthy result && negb (JS.eqb result (JS.lit "null"))
          then JS.lit " => " ++ result
          else [])).
Proof.
  unfold Render.hasOutput, Render.displayedText, Render.displayResult, Render.combine.
  intros Hout. rewrite Hout. apply andb_prop in Hout as [Hout _].
  cbn [JS.truthyOpt]. now rewrite Hout.
Qed.


(** C7, on the code: side output that is only white space (here one line
    break) is not shown, and it also takes the [=> ] prefix away: the
    annotation is the bare result.  The output channel, given the same
    arguments, prints [=> 2]. *)
Theorem displayedText_blank_output :
  Render.hasOutput (Some [10%N]) = false
  ∧ Render.displayedText (JS.lit "2") (Some [10%N]) = JS.lit "2"
  ∧ Render.showResultInOutputChannel (JS.lit "10:00:00") (JS.lit "1 + 1") (JS.lit "2")
      false (Some [10%N])
    = [JS.lit "[10:00:00] Evaluating:"; JS.lit "  1 + 1"; [];
       JS.lit "=> 2"; repeat 0x2500%N 60; []].
Proof. repeat split; vm_compute; reflexivity. Qed.

(** C3, as stated, fails on the code: without side output the [=> ] prefix is
    put in front of the truncated text, so the annotation of an 81-character
    result is 84 characters long; and only line feeds are collapsed, so a
    carriage return stays in the annotation. *)
Lemma displayedText_length_counterexample :
  (80 < length (Render.collapse (Render.combine (repeat 97%N 81) None)))%nat
  ∧ length (Render.displayedText (repeat 97%N 81) None) = 84%nat
  ∧ 13%N ∈ Render.displayedText [97; 13; 98]%N None.
Proof.
  split; [vm_compute; lia|]. split; [vm_compute; reflexivity|].
  vm_compute. repeat constructor.
Qed.

(** C3 (amended): the annotation never holds a line feed.  When the composed
    text, line feeds collapsed, is longer than 80 characters, it is cut to
    80 characters plus the ellipsis, 81 in all; the annotation is that text
    when side output with visible content is present, and that text after
    the 3-character prefix [=> ], 84 in all, when side output is absent or
    empty. *)
Theorem displayedText_truncated (result : JS.str) (stdout : option JS.str) :
  Forall (λ c, c ≠ 10%N) (Render.displayedText result stdout)
  ∧ ((80 < length (Render.collapse (Render.combine result stdout)))%nat →
     JS.truthyOpt stdout = Render.hasOutput stdout →
     length (Render.displayResult result stdout) = 81%nat
     ∧ length (Render.displayedText result stdout)
       = if Render.hasOutput stdout then 81%nat else 84%nat).
Proof.
  split; [apply displayedText_no_newline|].
  intros Hlong Hout.
  pose proof (truncate_length _ Hlong) as Hlen.
  split; [exact Hlen|].
  unfold Render.displayedText, Render.displayResult in *. rewrite Hout.
  destruct (Render.hasOutput stdout); [exact Hlen|].
  rewrite length_app, Hlen. reflexivity.
Qed.

(** An 81-character result without side output. *)
Lemma displayedText_truncated_witness :
  (80 < length (Render.collapse (Render.combine (repeat 97%N 81) None)))%nat
  ∧ JS.truthyOpt None = Render.hasOutput None
  ∧ length (Render.displayResult (repeat 97%N 81) None) = 81%nat
  ∧ length (Render.displayedText (repeat 97%N 81) None)
    = if Render.hasOutput None then 81%nat else 84%nat.
Proof.
  assert (H1 : (80 < length (Render.collapse (Render.combine (repeat 97%N 81) None)))%nat)
    by (vm_compute; lia).
  assert (H2 : JS.truthyOpt None = Render.hasOutput None) by reflexivity.
  split; [exact H1|]. split; [exact H2|].
  exact (proj2 (displayedText_truncated (repeat 97%N 81) None) H1 H2).
Defined.

(** The annotation right after [showInlineResult]: the editor shows the one
    decoration, and the subscription and the timer are registered. *)
Lemma showInlineResult_state (h : Render.Host) (editor : Render.Editor)
    (range : Form.Range) (result : JS.str) (isError : bool)
    (stdout : option JS.str) :
  let '(h1, l, t) := Render.showInlineResult editor range result isError stdout h in
  (∃ dec, Render.decorations h1 !! Render.editorId editor = Some [dec])
  ∧ Render.listeners h1 !! l = Some editor
  ∧ Render.timers h1 !! t = Some (editor, l).
Proof.
  unfold Render.showInlineResult, Render.setDecorations. simpl.
  split; [eexists; apply lookup_insert_eq|].
  split; apply lookup_insert_eq.
Qed.

Lemma fire_edit_live (h : Render.Host) (editor : Render.Editor) (l : nat) :
  Render.listeners h !! l = Some editor →
  Render.fire (Render.DidChangeTextDocument l (Render.document editor)) h
  = Render.dispose l (Render.setDecorations editor [] h).
Proof.
  intros Hl. simpl. rewrite Hl. now rewrite bool_decide_eq_true_2.
Qed.

Lemma fire_edit_disposed (h : Render.Host) (l doc : nat) :
  Render.listeners h !! l = None →
  Render.fire (Render.DidChangeTextDocument l doc) h = h.
Proof. intros Hl. simpl. now rewrite Hl. Qed.

Lemma fire_timeout_pending (h : Render.Host) (editor : Render.Editor) (l t : nat) :
  Render.timers h !! t = Some (editor, l) →
  Render.fire (Render.Timeout t) h
  = Render.dispose l (Render.setDecorations editor []
      {| Render.decorations := Render.decorations h;
         Render.listeners := Render.listeners h;
         Render.timers := delete t (Render.timers h) |}).
Proof. intros Ht. simpl. now rewrite Ht. Qed.

(** Clearing changes what the editor shows exactly when it shows
    something else than nothing. *)
Lemma clear_effective (m : gmap nat (list Render.Decoration)) (k : nat)
    (dec : Render.Decoration) :
  m !! k = Some [dec] → <[k := []]> m ≠ m.
Proof.
  intros Hk Heq. assert (H : <[k := []]> m !! k = Some [dec]) by now rewrite Heq.
  rewrite lookup_insert_eq in H. discriminate.
Qed.

Lemma clear_again (m : gmap nat (list Render.Decoration)) (k : nat) :
  m !! k = Some [] → <[k := []]> m = m.
Proof. apply insert_id. Qed.

(** C6: clearing an inline annotation is idempotent.  From the host state
    right after an annotation is shown, firing the edit-triggered clear and
    the timeout clear, in either order, gives exactly one effective clear:
    the first trigger empties the editor's eval decorations, and the second
    changes neither the decorations nor the subscriptions.  When the timer
    fires first, the change event no longer reaches the disposed
    subscription and the host is left as it was. *)
Theorem clear_idempotent (h : Render.Host) (editor : Render.Editor)
    (range : Form.Range) (result : JS.str) (isError : bool)
    (stdout : option JS.str) :
  let '(h1, l, t) := Render.showInlineResult editor range result isError stdout h in
  let edit := Render.DidChangeTextDocument l (Render.document editor) in
  let timeout := Render.Timeout t in
  (Render.effectiveClears [edit; timeout] h1 = 1%nat
   ∧ Render.decorations (Render.fire edit h1) !! Render.editorId editor = Some []
   ∧ Render.decorations (Render.fire timeout (Render.fire edit h1))
     = Render.decorations (Render.fire edit h1)
   ∧ Render.listeners (Render.fire timeout (Render.fire edit h1))
     = Render.listeners (Render.fire edit h1))
  ∧ (Render.effectiveClears [timeout; edit] h1 = 1%nat
     ∧ Render.decorations (Render.fire timeout h1) !! Render.editorId editor = Some []
     ∧ Render.fire edit (Render.fire timeout h1) = Render.fire timeout h1).
Proof.
  pose proof (showInlineResult_state h editor range result isError stdout) as Hshow.
  destruct (Render.showInlineResult _ _ _ _ _ _) as [[h1 l] t].
  destruct Hshow as ((dec & Hdec) & Hl & Ht).
  cbv zeta.
  set (edit := Render.DidChangeTextDocument l (Render.document editor)).
  set (timeout := Render.Timeout t).
  assert (Hedit : Render.fire edit h1
                  = Render.dispose l (Render.setDecorations editor [] h1))
    by (apply fire_edit_live; exact Hl).
  assert (Htime : Render.fire timeout h1
                  = Render.dispose l (Render.setDecorations editor []
                      {| Render.decorations := Render.decorations h1;
                         Render.listeners := Render.listeners h1;
                         Render.timers := delete t (Render.timers h1) |}))
    by (apply fire_timeout_pending; exact Ht).
  assert (Htime2 : Render.fire timeout (Render.fire edit h1)
                   = Render.dispose l (Render.setDecorations editor []
                       {| Render.decorations := Render.decorations (Render.fire edit h1);
                          Render.listeners := Render.listeners (Render.fire edit h1);
                          Render.timers := delete t (Render.timers (Render.fire edit h1)) |})).
  { apply fire_timeout_pending. rewrite Hedit. exact Ht. }
  assert (Hedit2 : Render.fire edit (Render.fire timeout h1) = Render.fire timeout h1).
  { apply fire_edit_disposed. rewrite Htime. apply lookup_delete_eq. }
  assert (Hdecs1 : Render.decorations (Render.fire edit h1)
                   = <[Render.editorId editor := []]> (Render.decorations h1))
    by (rewrite Hedit; reflexivity).
  assert (Hdecs2 : Render.decorations (Render.fire timeout h1)
                   = <[Render.editorId editor := []]> (Render.decorations h1))
    by (rewrite Htime; reflexivity).
  assert (Hdecs3 : Render.decorations (Render.fire timeout (Render.fire edit h1))
                   = Render.decorations (Render.fire edit h1)).
  { rewrite Htime2. cbn [Render.dispose Render.setDecorations Render.decorations].
    rewrite Hdecs1. apply insert_insert_eq. }
  assert (Hfirst : ∀ tg, Render.decorations (Render.fire tg h1)
                         = <[Render.editorId editor := []]> (Render.decorations h1) →
                         Render.isEffective tg h1 = true).
  { intros tg Htg. unfold Render.isEffective. apply bool_decide_eq_true_2.
    rewrite Htg. now apply (clear_effective _ _ dec). }
  split.
  - repeat split.
    + cbn [Render.effectiveClears]. rewrite (Hfirst edit Hdecs1).
      unfold Render.isEffective. rewrite Hdecs3.
      rewrite bool_decide_eq_false_2; [reflexivity | tauto].
    + rewrite Hdecs1. apply lookup_insert_eq.
    + exact Hdecs3.
    + rewrite Htime2, Hedit.
      cbn [Render.dispose Render.setDecorations Render.listeners].
      apply delete_id, lookup_delete_eq.
  - repeat split.
    + cbn [Render.effectiveClears]. rewrite (Hfirst timeout Hdecs2).
      unfold Render.isEffective. rewrite Hedit2.
      rewrite bool_decide_eq_false_2; [reflexivity | tauto].
    + rewrite Hdecs2. apply lookup_insert_eq.
    + exact Hedit2.
Qed.

(** The edit handler does not cancel the timer.  When a later annotation is
    shown on the same editor before the timer of an earlier one runs out,
    that timer empties the editor's eval decorations, the later annotation
    among them. *)
Lemma earlier_timer_clears_later_annotation (h : Render.Host)
    (editor : Render.Editor) (range range' : Form.Range)
    (result result' : JS.str) (isError isError' : bool)
    (stdout stdout' : option JS.str) :
  let '(h1, l, t) := Render.showInlineResult editor range result isError stdout h in
  let h2 := Render.fire (Render.DidChangeTextDocument l (Render.document editor)) h1 in
  let '(h3, _, _) :=
    Render.showInlineResult editor range' result' isError' stdout' h2 in
  (∃ dec, Render.decorations h3 !! Render.editorId editor = Some [dec])
  ∧ Render.decorations (Render.fire (Render.Timeout t) h3)
      !! Render.editorId editor = Some [].
Proof.
  pose proof (showInlineResult_state h editor range result isError stdout) as Hshow.
  destruct (Render.showInlineResult editor range _ _ _ h) as [[h1 l] t].
  destruct Hshow as (_ & Hl & Ht). cbv zeta.
  rewrite (fire_edit_live _ _ _ Hl).
  set (h2 := Render.dispose l (Render.setDecorations editor [] h1)).
  assert (Ht2 : Render.timers h2 !! t = Some (editor, l)) by exact Ht.
  pose proof (showInlineResult_state h2 editor range' result' isError' stdout') as Hshow'.
  unfold Render.showInlineResult in *.
  cbn [Render.setDecorations Render.decorations Render.listeners Render.timers] in *.
  destruct Hshow' as (Hdec & _ & _). split; [exact Hdec|].
  set (t' := fresh (dom (Render.timers h2))) in *.
  assert (Hne : t' ≠ t).
  { intros Heq. pose proof (is_fresh (dom (Render.timers h2))) as Hfresh.
    apply Hfresh. fold t'. rewrite Heq. apply elem_of_dom. eauto. }
  cbn [Render.fire Render.timers]. rewrite lookup_insert_ne by exact Hne.
  rewrite Ht2. cbn [Render.dispose Render.setDecorations Render.decorations].
  apply lookup_insert_eq.
Qed.

(** ** The dispatcher *)

Example eval_one_plus_one :
  Eval.evaluateHotCode Samples.cliPrints2 (JS.lit "1 + 1") None None
  = (Eval.Fulfilled {| Eval.success := true; Eval.result := JS.lit "2";
                       Eval.error := None; Eval.namespace := None;
                       Eval.stdout := None |},
     [Eval.ExecutedFile (JS.lit "hot") [JS.lit "eval"; JS.lit "1 + 1"] 30000
        (JS.lit "/work")]).
Proof. vm_compute. reflexivity. Qed.

(** The fallback runs the command once, with the 30-second timeout. *)
Lemma cliFallback_events (env : Eval.Env) (code : JS.str) :
  (Eval.cliFallback env code).2
  = [Eval.ExecutedFile (Eval.commandPath env) [JS.lit "eval"; code] 30000
       (Eval.cwd env)].
Proof.
  unfold Eval.cliFallback. now destruct (Child.callbackArgs _) as [[? ?] ?].
Qed.






(** C9: on the command-line fallback the successful result is the standard
    output with the white space at both ends removed, so it never ends in a
    line break; on failure the result is the empty string and the error
    text is the standard error when that is non-empty, and the error's
    message otherwise. *)
Theorem cliFallback_result (env : Eval.Env) (code : JS.str) :
  match Child.callbackArgs
          (Eval.execFile env (Eval.commandPath env) [JS.lit "eval"; code] 30000
             (Eval.cwd env)) with
  | (None, out, _) =>
      ∃ r, (Eval.cliFallback env code).1 = Eval.Fulfilled r
           ∧ Eval.success r = true
           ∧ Eval.result r = JS.trim out
           ∧ (∃ l t, out = l ++ Eval.result r ++ t
                     ∧ Forall (λ c, JS.isWhiteSpace c = true) l
                     ∧ Forall (λ c, JS.isWhiteSpace c = true) t)
           ∧ (∀ c, head (Eval.result r) = Some c → JS.isWhiteSpace c = false)
           ∧ (∀ c, last (Eval.result r) = Some c → JS.isWhiteSpace c = false)
           ∧ last (Eval.result r) ≠ Some 10%N
  | (Some e, _, err) =>
      ∃ r, (Eval.cliFallback env code).1 = Eval.Fulfilled r
           ∧ Eval.success r = false
           ∧ Eval.result r = []
           ∧ Eval.error r = Some (if JS.truthy err then err else Child.message e)
  end.
Proof.
  unfold Eval.cliFallback.
  destruct (Child.callbackArgs _) as [[[e|] out] err]; simpl.
  - eexists. repeat split.
  - eexists. split; [reflexivity|]. simpl.
    destruct (trim_spec out) as (l & t & Hout & Hl & Ht & Hhead & Hlast).
    repeat split; try assumption.
    + exists l, t. repeat split; assumption.
    + intros Hnl. apply Hlast in Hnl. discriminate.
Qed.

(** The fallback on a command that prints 2 and a line break. *)
Lemma cliFallback_result_witness :
  ∃ r, (Eval.cliFallback Samples.cliPrints2 (JS.lit "1 + 1")).1 = Eval.Fulfilled r
       ∧ Eval.result r = JS.lit "2"
       ∧ last (Eval.result r) ≠ Some 10%N.
Proof.
  pose proof (cliFallback_result Samples.cliPrints2 (JS.lit "1 + 1")) as H.
  cbn [Samples.cliPrints2 Eval.execFile Child.callbackArgs] in H.
  destruct H as (r & Hr & _ & Hres & _ & _ & _ & Hnl).
  exists r. split; [exact Hr|]. split; [rewrite Hres; reflexivity | exact Hnl].
Defined.

(** ** The format bridge *)

Section FormatBridge.
Variable env : Fmt.Env.
Variable content : JS.str.
Variable w : Fmt.World.

Local Abbreviation ran := (Fmt.ran env content w).

(** The promise is rejected exactly when writing the temporary file
    throws. *)
Lemma format_write_fault (e : Child.JsError) :
  Fmt.writeFault env = Some e →
  Fmt.formatHotDocument env content w
  = (Eval.Rejected {| Child.message := Child.message e |}, w).
Proof.
  intros He. unfold Fmt.formatHotDocument, Fmt.bind, Fmt.writeFileSync.
  now rewrite He.
Qed.

Lemma format_after_write :
  Fmt.writeFault env = None →
  Fmt.formatHotDocument env content w
  = match Fmt.onFormatted env content (Child.callbackArgs ran.1)
            {| Fmt.files := ran.2; Fmt.logged := Fmt.logged w |} with
    | (Form.Value edits, w') => (Eval.Fulfilled edits, w')
    | (Form.Thrown e, w') => (Eval.Rejected {| Child.message := e |}, w')
    end.
Proof.
  intros Hw. unfold Fmt.formatHotDocument, Fmt.bind, Fmt.writeFileSync, Fmt.runFormatter.
  rewrite Hw. cbn [Fmt.files Fmt.logged]. unfold Fmt.ran.
  now destruct (Fmt.execFile _ _ _ _ _).
Qed.

(** The callback never throws: every exception of the [try] block is
    caught. *)
Lemma onFormatted_returns (args : option Child.JsError * JS.str * JS.str)
    (w0 : Fmt.World) :
  ∃ edits w', Fmt.onFormatted env content args w0 = (Form.Value edits, w').
Proof.
  destruct args as [[error out] err]. unfold Fmt.onFormatted, Fmt.tryCatch.
  match goal with
  | |- context [match ?m w0 with _ => _ end] => destruct (m w0) as [[edits|e] w1]
  end; [eauto|].
  unfold Fmt.bind, Fmt.tryCatch, Fmt.appendLine, Fmt.ret.
  destruct (Fmt.unlinkSync _ w1) as [[[]|?] w2]; eauto.
Qed.

Lemma format_settles :
  Fmt.writeFault env = None →
  ∃ edits w', Fmt.formatHotDocument env content w = (Eval.Fulfilled edits, w').
Proof.
  intros Hw. rewrite (format_after_write Hw).
  destruct (onFormatted_returns (Child.callbackArgs ran.1)
              {| Fmt.files := ran.2; Fmt.logged := Fmt.logged w |})
    as (edits & w' & ->).
  eauto.
Qed.

(** Read-back of a file that is there, then its removal. *)
Lemma read_back (formatted : JS.str) (w0 : Fmt.World)
    (k : JS.str → Fmt.IO (list Fmt.TextEdit)) :
  Fmt.readFault env = None →
  Fmt.files w0 !! Fmt.tmpFile env = Some formatted →
  Fmt.bind (Fmt.readFileSync env (Fmt.tmpFile env))
    (λ f, Fmt.bind (Fmt.unlinkSync (Fmt.tmpFile env)) (λ _, k f)) w0
  = k formatted {| Fmt.files := delete (Fmt.tmpFile env) (Fmt.files w0);
                   Fmt.logged := Fmt.logged w0 |}.
Proof.
  intros Hr Hf. unfold Fmt.bind, Fmt.readFileSync, Fmt.unlinkSync.
  now rewrite Hf, Hr, Hf.
Qed.

(** Clean exit: no edit when the formatter left the text as it was, one
    edit over the whole document when it changed it; the temporary file is
    removed. *)
Lemma format_clean_exit (out err formatted : JS.str) :
  Fmt.writeFault env = None → Fmt.readFault env = None →
  ran.1 = Child.ExitZero out err →
  ran.2 !! Fmt.tmpFile env = Some formatted →
  Fmt.formatHotDocument env content w
  = (Eval.Fulfilled (if JS.eqb formatted content then []
                     else [Fmt.replaceAll content formatted]),
     {| Fmt.files := delete (Fmt.tmpFile env) ran.2; Fmt.logged := Fmt.logged w |}).
Proof.
  intros Hw Hr Hexit Hfile. rewrite (format_after_write Hw), Hexit.
  cbn [Child.callbackArgs]. unfold Fmt.onFormatted, Fmt.tryCatch.
  rewrite (read_back formatted); [|assumption|exact Hfile].
  cbn [Fmt.files Fmt.logged]. unfold Fmt.ret.
  now destruct (JS.eqb formatted content).
Qed.

Lemma bind_existsSync {B} (path : JS.str) (k : bool → Fmt.IO B) (w0 : Fmt.World) :
  Fmt.bind (Fmt.existsSync path) k w0
  = k (bool_decide (is_Some (Fmt.files w0 !! path))) w0.
Proof. reflexivity. Qed.

(** The failure branch logs and resolves to no edits. *)
Lemma failure_branch (err : JS.str) (e : Child.JsError) (w0 : Fmt.World) :
  ∃ w', Fmt.bind (Fmt.appendLine env (JS.lit "[hot] Format error: " ++ Child.message e))
          (λ _, Fmt.bind (if JS.truthy err
                          then Fmt.appendLine env (JS.lit "[hot] stderr: " ++ err)
                          else Fmt.ret ())
                  (λ _, Fmt.ret (@nil Fmt.TextEdit))) w0
        = (Form.Value [], w') ∧ Fmt.files w' = Fmt.files w0.
Proof.
  unfold Fmt.bind, Fmt.appendLine, Fmt.ret.
  destruct (Fmt.channel env), (JS.truthy err); eexists; split; reflexivity.
Qed.

(** A failure with the CHAR-AUDIT marker and the file in place: the same
    rule, and the temporary file is removed. *)
Lemma format_char_audit (e : Child.JsError) (out err formatted : JS.str) :
  Fmt.writeFault env = None → Fmt.readFault env = None →
  Child.callbackArgs ran.1 = (Some e, out, err) →
  JS.truthy err && JS.includes err (JS.lit "CHAR-AUDIT") = true →
  ran.2 !! Fmt.tmpFile env = Some formatted →
  (Fmt.formatHotDocument env content w).1
  = Eval.Fulfilled (if JS.eqb formatted content then []
                    else [Fmt.replaceAll content formatted])
  ∧ Fmt.files (Fmt.formatHotDocument env content w).2
    = delete (Fmt.tmpFile env) ran.2.
Proof.
  intros Hw Hr Hargs Hmark Hfile. rewrite (format_after_write Hw), Hargs.
  unfold Fmt.onFormatted, Fmt.tryCatch. rewrite Hmark.
  rewrite bind_existsSync. cbn [Fmt.files].
  rewrite bool_decide_eq_true_2 by (rewrite Hfile; eauto).
  rewrite (read_back formatted); [|assumption|exact Hfile].
  cbn [Fmt.files Fmt.logged].
  destruct (JS.eqb formatted content); cbn [negb].
  - destruct (failure_branch err e
                {| Fmt.files := delete (Fmt.tmpFile env) ran.2;
                   Fmt.logged := Fmt.logged w |}) as (w' & -> & Hfiles).
    split; [reflexivity | exact Hfiles].
  - split; reflexivity.
Qed.

(** Any other failure of the formatter: no edits, and the files stay as the
    formatter left them, the temporary file among them. *)
Lemma format_other_failure (e : Child.JsError) (out err : JS.str) :
  Fmt.writeFault env = None →
  Child.callbackArgs ran.1 = (Some e, out, err) →
  JS.truthy err && JS.includes err (JS.lit "CHAR-AUDIT") = false →
  (Fmt.formatHotDocument env content w).1 = Eval.Fulfilled []
  ∧ Fmt.files (Fmt.formatHotDocument env content w).2 = ran.2.
Proof.
  intros Hw Hargs Hmark. rewrite (format_after_write Hw), Hargs.
  unfold Fmt.onFormatted, Fmt.tryCatch. rewrite Hmark.
  destruct (failure_branch err e {| Fmt.files := ran.2; Fmt.logged := Fmt.logged w |})
    as (w' & -> & Hfiles).
  split; [reflexivity | exact Hfiles].
Qed.

Lemma read_throws {B} (e : Child.JsError) (k : JS.str → Fmt.IO B) (w0 : Fmt.World) :
  Fmt.readFault env = Some e →
  ∃ msg, Fmt.bind (Fmt.readFileSync env (Fmt.tmpFile env)) k w0 = (Form.Thrown msg, w0).
Proof.
  intros Hr. unfold Fmt.bind, Fmt.readFileSync. rewrite Hr.
  destruct (Fmt.files w0 !! Fmt.tmpFile env); eauto.
Qed.

(** The [catch] block removes the temporary file when it is there. *)
Lemma catch_cleans (msg : JS.str) (w0 : Fmt.World) :
  ∃ w', Fmt.bind (Fmt.tryCatch (Fmt.unlinkSync (Fmt.tmpFile env)) (λ _, Fmt.ret ()))
          (λ _, Fmt.bind (Fmt.appendLine env (JS.lit "[hot] Format exception: " ++ msg))
                  (λ _, Fmt.ret (@nil Fmt.TextEdit))) w0
        = (Form.Value [], w')
        ∧ Fmt.files w' !! Fmt.tmpFile env = None.
Proof.
  unfold Fmt.bind, Fmt.tryCatch, Fmt.unlinkSync, Fmt.appendLine, Fmt.ret.
  destruct (Fmt.files w0 !! Fmt.tmpFile env) eqn:Hfile;
    destruct (Fmt.channel env); eexists; (split; [reflexivity|]);
    cbn [Fmt.files]; first [apply lookup_delete_eq | exact Hfile].
Qed.

(** An exception while reading back after a clean exit: no edits, and the
    temporary file is gone. *)
Lemma format_read_exception (out err : JS.str) (e : Child.JsError) :
  Fmt.writeFault env = None → Fmt.readFault env = Some e →
  ran.1 = Child.ExitZero out err →
  (Fmt.formatHotDocument env content w).1 = Eval.Fulfilled []
  ∧ Fmt.files (Fmt.formatHotDocument env content w).2 !! Fmt.tmpFile env = None.
Proof.
  intros Hw Hr Hexit. rewrite (format_after_write Hw), Hexit.
  cbn [Child.callbackArgs].
  assert (H : ∃ w', Fmt.onFormatted env content (None, out, err)
                      {| Fmt.files := ran.2; Fmt.logged := Fmt.logged w |}
                    = (Form.Value [], w')
                    ∧ Fmt.files w' !! Fmt.tmpFile env = None).
  { unfold Fmt.onFormatted. unfold Fmt.tryCatch at 1.
    match goal with
    | |- context [Fmt.bind (Fmt.readFileSync env (Fmt.tmpFile env)) ?k ?w0] =>
        destruct (read_throws e k w0 Hr) as (msg & ->)
    end.
    apply catch_cleans. }
  destruct H as (w' & -> & Hgone).
  split; [reflexivity | exact Hgone].
Qed.

End FormatBridge.

(** C4, on the code: when the formatter fails without the CHAR-AUDIT marker
    the promise resolves to no edits and the temporary file is still there. *)
Theorem formatHotDocument_leaves_tmp_file :
  (Fmt.formatHotDocument Samples.fmtRejects (JS.lit "x 1") Samples.emptyWorld).1
  = Eval.Fulfilled []
  ∧ Fmt.files
      (Fmt.formatHotDocument Samples.fmtRejects (JS.lit "x 1") Samples.emptyWorld).2
    !! Fmt.tmpFile Samples.fmtRejects
    = Some (JS.lit "x 1").
Proof. split; vm_compute; reflexivity. Qed.

(** C5, on the code: when writing the temporary file throws, the promise
    [formatHotDocument] returns is rejected. *)
Theorem formatHotDocument_rejects_on_write_fault :
  Fmt.formatHotDocument Samples.tmpReadOnly (JS.lit "x 1") Samples.emptyWorld
  = (Eval.Rejected {| Child.message := JS.lit "EACCES: permission denied" |},
     Samples.emptyWorld).
Proof. vm_compute. reflexivity. Qed.

(* ===================================================================== *)
(** * Part III: further properties of the code                             *)
(* ===================================================================== *)

(** ** The order [compareSemver] defines *)

(** The component of a version at index [i], a missing one counting as 0. *)
Local Abbreviation component v i := (nth i (Semver.parts v) 0%Z).

Lemma compareFrom_antisym (pa pb : list Z) (i n : nat) :
  Semver.compareFrom pb pa i n = (- Semver.compareFrom pa pb i n)%Z.
Proof.
  revert i. induction n as [|n IH]; intros i; simpl; [reflexivity|].
  rewrite !Z.gtb_ltb.
  destruct (Z.ltb_spec (nth i pb 0%Z) (nth i pa 0%Z)),
           (Z.ltb_spec (nth i pa 0%Z) (nth i pb 0%Z));
    try reflexivity; try lia. apply IH.
Qed.


(** The loop returns -1 exactly when the first component that differs is
    the smaller one on the left. *)
Lemma compareFrom_less (pa pb : list Z) (i n : nat) :
  Semver.compareFrom pa pb i n = (-1)%Z
  ↔ ∃ k, (k < n)%nat
         ∧ (∀ j, (j < k)%nat → nth (i + j) pa 0%Z = nth (i + j) pb 0%Z)
         ∧ (nth (i + k) pa 0%Z < nth (i + k) pb 0%Z)%Z.
Proof.
  revert i. induction n as [|n IH]; intros i; simpl.
  - split; [discriminate | intros (k & Hk & _); lia].
  - rewrite Z.gtb_ltb.
    destruct (Z.ltb_spec (nth i pa 0%Z) (nth i pb 0%Z)) as [Hlt|Hge].
    { split; [intros _|reflexivity]. exists 0%nat.
      rewrite Nat.add_0_r. repeat split; [lia | intros j Hj; lia | exact Hlt]. }
    destruct (Z.ltb_spec (nth i pb 0%Z) (nth i pa 0%Z)) as [Hgt|Hle].
    { split; [discriminate|]. intros ([|k] & Hk & Heq & Hlt).
      - rewrite Nat.add_0_r in Hlt. lia.
      - specialize (Heq 0%nat ltac:(lia)). rewrite Nat.add_0_r in Heq. lia. }
    rewrite IH. split.
    + intros (k & Hk & Heq & Hlt). exists (S k).
      rewrite Nat.add_succ_r. repeat split; [lia | | exact Hlt].
      intros [|j] Hj; [rewrite Nat.add_0_r; lia|].
      rewrite Nat.add_succ_r. apply Heq. lia.
    + intros ([|k] & Hk & Heq & Hlt).
      * rewrite Nat.add_0_r in Hlt. lia.
      * exists k. rewrite Nat.add_succ_r in Hlt. repeat split; [lia | | exact Hlt].
        intros j Hj. specialize (Heq (S j) ltac:(lia)).
        now rewrite Nat.add_succ_r in Heq.
Qed.

Lemma component_beyond (v : JS.str) (i : nat) :
  (length (Semver.parts v) ≤ i)%nat → component v i = 0%Z.
Proof. intros H. now apply nth_overflow. Qed.

Lemma compareSemver_less (a b : JS.str) :
  Semver.compareSemver a b = (-1)%Z
  ↔ ∃ k, (∀ j, (j < k)%nat → component a j = component b j)
         ∧ (component a k < component b k)%Z.
Proof.
  unfold Semver.compareSemver. rewrite compareFrom_less. split.
  - intros (k & _ & Heq & Hlt). exists k. split; [exact Heq | exact Hlt].
  - intros (k & Heq & Hlt). exists k. repeat split; [|exact Heq | exact Hlt].
    destruct (Nat.lt_ge_cases k (Nat.max (length (Semver.parts a))
                                         (length (Semver.parts b)))) as [H|H];
      [exact H|].
    simpl in Hlt.
    rewrite (component_beyond a k), (component_beyond b k) in Hlt; lia.
Qed.

(** X1: swapping the arguments of [compareSemver] negates the result. *)
Theorem compareSemver_antisym (a b : JS.str) :
  Semver.compareSemver b a = (- Semver.compareSemver a b)%Z.
Proof.
  unfold Semver.compareSemver. rewrite Nat.max_comm. apply compareFrom_antisym.
Qed.


(** X3: "older than" is transitive: when [a] compares below [b] and [b]
    below [c], [a] compares below [c]. *)
Theorem compareSemver_trans (a b c : JS.str) :
  Semver.compareSemver a b = (-1)%Z →
  Semver.compareSemver b c = (-1)%Z →
  Semver.compareSemver a c = (-1)%Z.
Proof.
  rewrite !compareSemver_less. intros (k1 & Heq1 & Hlt1) (k2 & Heq2 & Hlt2).
  destruct (Nat.lt_trichotomy k1 k2) as [Hk|[Hk|Hk]].
  - exists k1. split; [|rewrite <- (Heq2 k1 Hk); exact Hlt1].
    intros j Hj. rewrite (Heq1 j Hj). apply Heq2. lia.
  - subst k2. exists k1. split; [|lia].
    intros j Hj. rewrite (Heq1 j Hj). now apply Heq2.
  - exists k2. split; [|rewrite (Heq1 k2 Hk); exact Hlt2].
    intros j Hj. rewrite (Heq1 j ltac:(lia)). now apply Heq2.
Qed.

(** Three releases in a row. *)
Lemma compareSemver_trans_witness :
  Semver.compareSemver (JS.lit "0.3.9") (JS.lit "0.4.0") = (-1)%Z
  ∧ Semver.compareSemver (JS.lit "0.4.0") (JS.lit "v1.0") = (-1)%Z
  ∧ Semver.compareSemver (JS.lit "0.3.9") (JS.lit "v1.0") = (-1)%Z.
Proof.
  assert (H1 : Semver.compareSemver (JS.lit "0.3.9") (JS.lit "0.4.0") = (-1)%Z)
    by reflexivity.
  assert (H2 : Semver.compareSemver (JS.lit "0.4.0") (JS.lit "v1.0") = (-1)%Z)
    by reflexivity.
  split; [exact H1|]. split; [exact H2|].
  exact (compareSemver_trans _ _ _ H1 H2).
Defined.

(** ** The installed version *)

Lemma trimStart_app_space (w s : JS.str) :
  Forall (λ c, JS.isWhiteSpace c = true) w →
  JS.trimStart (w ++ s) = JS.trimStart s.
Proof. induction 1 as [|c w Hc _ IH]; simpl; [reflexivity | now rewrite Hc]. Qed.

Lemma trimStart_id (s : JS.str) :
  (∀ c, head s = Some c → JS.isWhiteSpace c = false) → JS.trimStart s = s.
Proof.
  destruct s as [|c s]; [reflexivity|]. intros H. simpl.
  now rewrite (H c eq_refl).
Qed.

Lemma trimStart_length (s : JS.str) : (length (JS.trimStart s) ≤ length s)%nat.
Proof.
  induction s as [|c s IH]; simpl; [lia|].
  destruct (JS.isWhiteSpace c); simpl; lia.
Qed.

Lemma takeNonSpace_app (v rest : JS.str) :
  Forall (λ c, JS.isWhiteSpace c = false) v →
  (∀ c, head rest = Some c → JS.isWhiteSpace c = true) →
  Update.takeNonSpace (v ++ rest) = v.
Proof.
  intros Hv Hrest. induction Hv as [|c v Hc _ IH]; simpl.
  - destruct rest as [|c rest]; [reflexivity|]. simpl.
    now rewrite (Hrest c eq_refl).
  - now rewrite Hc, IH.
Qed.

Lemma takeNonSpace_Forall (s : JS.str) :
  Forall (λ c, JS.isWhiteSpace c = false) (Update.takeNonSpace s).
Proof.
  induction s as [|c s IH]; simpl; [constructor|].
  destruct (JS.isWhiteSpace c) eqn:Hc; [constructor | now constructor].
Qed.

Lemma startsWith_nil (s : JS.str) : JS.startsWith s [] = true.
Proof. now destruct s. Qed.

(** X4: the output of [hot version] is read back: after [hot], white space,
    a version without white space and then nothing or more white-space
    separated text, [matchVersion] returns exactly the version. *)
Theorem matchVersion_reads_version (space v rest : JS.str) :
  space ≠ [] → Forall (λ c, JS.isWhiteSpace c = true) space →
  v ≠ [] → Forall (λ c, JS.isWhiteSpace c = false) v →
  (∀ c, head rest = Some c → JS.isWhiteSpace c = true) →
  Update.matchVersion (JS.lit "hot" ++ space ++ v ++ rest) = Some v.
Proof.
  intros Hsp Hspace Hv Hvs Hrest. unfold Update.matchVersion.
  change (JS.lit "hot") with [104%N; 111%N; 116%N].
  cbn [JS.startsWith app N.eqb Pos.eqb andb drop].
  rewrite startsWith_nil, drop_0.
  rewrite (trimStart_app_space _ _ Hspace).
  rewrite trimStart_id.
  - rewrite !length_app.
    destruct (Nat.ltb_spec (length v + length rest)
                (length space + (length v + length rest))) as [_|Hge].
    + rewrite (takeNonSpace_app _ _ Hvs Hrest). now destruct v.
    + destruct space; [contradiction | simpl in Hge; lia].
  - destruct Hvs as [|c v' Hc _]; [contradiction|].
    simpl. intros ? [= <-]. exact Hc.
Qed.

(** The output of [hot version] for release 0.4.0. *)
Lemma matchVersion_reads_version_witness :
  Update.matchVersion
    (JS.lit "hot" ++ JS.lit " " ++ JS.lit "0.4.0" ++ (JS.lit " (abc1234)" ++ [10%N]))
  = Some (JS.lit "0.4.0").
Proof.
  apply (matchVersion_reads_version (JS.lit " ") (JS.lit "0.4.0")
           (JS.lit " (abc1234)" ++ [10%N])).
  - discriminate.
  - repeat constructor.
  - discriminate.
  - repeat constructor.
  - intros c [= <-]. reflexivity.
Defined.

(** X5: [fetchInstalledVersion] never loses a version it knows and never
    records an empty one: the variable keeps its value when the command
    fails or its output does not match, and a new value is a non-empty text
    without white space. *)
Theorem fetchInstalledVersion_keeps_or_sets (o : Child.Outcome)
    (installedVersion : option JS.str) :
  match Update.fetchInstalledVersion o installedVersion with
  | Some v =>
      installedVersion = Some v
      ∨ (v ≠ [] ∧ Forall (λ c, JS.isWhiteSpace c = false) v
         ∧ ∃ out err, o = Child.ExitZero out err)
  | None => installedVersion = None
  end.
Proof.
  unfold Update.fetchInstalledVersion.
  destruct o as [out err|code e out err|e|e out err]; simpl;
    try (destruct installedVersion; auto; fail).
  unfold Update.matchVersion.
  destruct (JS.startsWith out _); [|destruct installedVersion; auto].
  destruct (_ <? _)%nat; [|destruct installedVersion; auto].
  pose proof (takeNonSpace_Forall (JS.trimStart (drop 3 out))) as Hns.
  destruct (Update.takeNonSpace _) as [|c v]; [destruct installedVersion; auto|].
  right. split; [discriminate|]. split; [exact Hns | eauto].
Qed.


(** ** The namespace of a document *)

Lemma head_rev (s : JS.str) : head (rev s) = last s.
Proof. rewrite <- (rev_involutive s) at 2. symmetry. apply last_rev. Qed.

Lemma trimEnd_id (s : JS.str) :
  (∀ c, last s = Some c → JS.isWhiteSpace c = false) → JS.trimEnd s = s.
Proof.
  intros H. unfold JS.trimEnd. rewrite trimStart_id; [apply rev_involutive|].
  intros c. rewrite head_rev. apply H.
Qed.

Lemma trim_id (s : JS.str) :
  (∀ c, head s = Some c → JS.isWhiteSpace c = false) →
  (∀ c, last s = Some c → JS.isWhiteSpace c = false) →
  JS.trim s = s.
Proof.
  intros Hh Hl. unfold JS.trim. rewrite (trimStart_id _ Hh). now apply trimEnd_id.
Qed.

(** Trimming twice is trimming once. *)
Lemma trim_trim (s : JS.str) : JS.trim (JS.trim s) = JS.trim s.
Proof.
  destruct (trim_spec s) as (_ & _ & _ & _ & _ & Hh & Hl). now apply trim_id.
Qed.

Lemma trim_Forall (P : N → Prop) (s : JS.str) : Forall P s → Forall P (JS.trim s).
Proof.
  intros H. destruct (trim_spec s) as (l & t & Hs & _). rewrite Hs in H.
  apply Forall_app in H as [_ H]. now apply Forall_app in H as [H _].
Qed.

Lemma indexOf_None (s : JS.str) (c : N) :
  Forall (λ d, d ≠ c) s → Namespace.indexOf s c = None.
Proof.
  induction 1 as [|d s Hd _ IH]; simpl; [reflexivity|].
  destruct (N.eqb_spec d c); [contradiction|]. now rewrite IH.
Qed.

Lemma indexOf_None_inv (s : JS.str) (c : N) :
  Namespace.indexOf s c = None → Forall (λ d, d ≠ c) s.
Proof.
  induction s as [|d s IH]; simpl; [constructor|].
  destruct (N.eqb_spec d c); [discriminate|].
  destruct (Namespace.indexOf s c); [discriminate|]. intros _. now constructor; auto.
Qed.

(** Before the index [indexOf] returns the code unit does not occur. *)
Lemma indexOf_Some (s : JS.str) (c : N) (i : nat) :
  Namespace.indexOf s c = Some i → Forall (λ d, d ≠ c) (take i s).
Proof.
  revert i. induction s as [|d s IH]; simpl; intros i; [discriminate|].
  destruct (N.eqb_spec d c).
  - intros [= <-]. constructor.
  - destruct (Namespace.indexOf s c) as [j|]; [|discriminate].
    intros [= <-]. simpl. constructor; [assumption | now apply IH].
Qed.

Lemma startsWith_app (s r p : JS.str) :
  JS.startsWith s p = true → JS.startsWith (s ++ r) p = true.
Proof.
  revert s. induction p as [|c p IH]; intros s; [intros _; apply startsWith_nil|].
  destruct s as [|d s]; simpl; [discriminate|].
  intros H. apply andb_prop in H as [-> H]. now rewrite (IH _ H).
Qed.

Lemma startsWith_self_app (p r : JS.str) : JS.startsWith (p ++ r) p = true.
Proof. induction p as [|c p IH]; simpl; [apply startsWith_nil|].
  now rewrite N.eqb_refl, IH. Qed.

Lemma endsWith_app (s p : JS.str) : JS.endsWith (s ++ p) p = true.
Proof. unfold JS.endsWith. rewrite rev_app_distr. apply startsWith_self_app. Qed.

Lemma lastIndexOf_app (s p : JS.str) :
  Namespace.lastIndexOf (s ++ p) p = Some (length s).
Proof.
  unfold Namespace.lastIndexOf. rewrite length_app.
  destruct (Nat.ltb_spec (length s + length p) (length p)) as [Hlt|_]; [lia|].
  replace (length s + length p - length p)%nat with (length s) by lia.
  assert (Hm : JS.startsWith (drop (length s) (s ++ p)) p = true).
  { rewrite drop_app_length. rewrite <- (app_nil_r p) at 1. apply startsWith_self_app. }
  destruct (length s); simpl in *; now rewrite Hm.
Qed.

(** What one line yields is a namespace path. *)
Lemma namespaceOfLine_path (line ns : JS.str) :
  Namespace.namespaceOfLine line = Some ns →
  JS.startsWith ns (JS.lit "::") = true ∧ JS.trim ns = ns
  ∧ Forall (λ c, c ≠ 35%N) ns.
Proof.
  unfold Namespace.namespaceOfLine. destruct (_ && _); [|discriminate].
  destruct (Namespace.indexOf (JS.trim line) 35) as [i|] eqn:Hidx.
  - destruct (0 <? i)%nat; [|discriminate].
    destruct (JS.startsWith _ _) eqn:Hs; [|discriminate]. intros [= <-].
    repeat split; [exact Hs | apply trim_trim|].
    apply trim_Forall. now apply indexOf_Some.
  - destruct (Namespace.lastIndexOf _ _) as [n|]; [|discriminate].
    destruct (0 <? n)%nat; [|discriminate].
    destruct (JS.startsWith _ _) eqn:Hs; [|discriminate]. intros [= <-].
    repeat split; [exact Hs | apply trim_trim|].
    apply trim_Forall, Forall_take. now apply indexOf_None_inv.
Qed.

(** X7: whatever the document, a namespace [extractNamespaceFromDocument]
    returns starts with [::], has no white space at either end and holds
    no [#]. *)
Theorem extractNamespace_path (text : JS.str) :
  match Namespace.extractNamespaceFromDocument text with
  | Some ns =>
      JS.startsWith ns (JS.lit "::") = true ∧ JS.trim ns = ns
      ∧ Forall (λ c, c ≠ 35%N) ns
  | None => True
  end.
Proof.
  unfold Namespace.extractNamespaceFromDocument.
  induction (JS.split (N.eqb 10) text) as [|line rest IH]; simpl; [exact I|].
  destruct (Namespace.namespaceOfLine line) as [ns|] eqn:Hline; [|exact IH].
  exact (namespaceOfLine_path line ns Hline).
Qed.

(** A declaration line [path ns] yields the path. *)
Lemma namespaceOfLine_declaration (line path : JS.str) :
  JS.trim line = path ++ JS.lit " ns" →
  JS.startsWith path (JS.lit "::") = true →
  Forall (λ c, c ≠ 35%N) path → JS.trim path = path →
  Namespace.namespaceOfLine line = Some path.
Proof.
  intros Hline Hstart Hhash Htrim. unfold Namespace.namespaceOfLine.
  rewrite Hline, (startsWith_app _ _ _ Hstart), endsWith_app. cbn [andb orb].
  rewrite indexOf_None.
  - rewrite lastIndexOf_app.
    destruct path as [|c path]; [discriminate|]. cbn [length Nat.ltb Nat.leb].
    change (S (length path)) with (length (c :: path)).
    now rewrite take_app_length, Htrim, Hstart.
  - apply Forall_app. split; [exact Hhash|]. repeat (constructor; [discriminate|]).
    constructor.
Qed.

(** X8: the namespace is read back from its declaration.  When the first
    line that yields anything is [path ns] (white space around it aside),
    with [path] starting with [::], free of [#] and of white space at its
    ends, the document's namespace is [path]. *)
Theorem extractNamespace_declaration (text line path : JS.str)
    (before after : list JS.str) :
  JS.split (N.eqb 10) text = before ++ line :: after →
  Forall (λ l, Namespace.namespaceOfLine l = None) before →
  JS.trim line = path ++ JS.lit " ns" →
  JS.startsWith path (JS.lit "::") = true →
  Forall (λ c, c ≠ 35%N) path → JS.trim path = path →
  Namespace.extractNamespaceFromDocument text = Some path.
Proof.
  intros Hsplit Hbefore Hline Hstart Hhash Htrim.
  unfold Namespace.extractNamespaceFromDocument. rewrite Hsplit. clear Hsplit.
  induction Hbefore as [|l before Hl _ IH]; simpl.
  - now rewrite (namespaceOfLine_declaration line path).
  - rewrite Hl. exact IH.
Qed.

(** The header of the README's sample, after a comment line. *)
Lemma extractNamespace_declaration_witness :
  Namespace.extractNamespaceFromDocument
    (JS.lit "// greeter" ++ [10%N] ++ JS.lit "::myapp::greeter ns" ++ [13%N; 10%N]
     ++ JS.lit "greeting 1")
  = Some (JS.lit "::myapp::greeter").
Proof.
  apply (extractNamespace_declaration _ (JS.lit "::myapp::greeter ns" ++ [13%N])
           (JS.lit "::myapp::greeter") [JS.lit "// greeter"] [JS.lit "greeting 1"]).
  - vm_compute. reflexivity.
  - repeat constructor.
  - vm_compute. reflexivity.
  - reflexivity.
  - vm_compute. repeat (constructor; [discriminate|]). constructor.
  - vm_compute. reflexivity.
Defined.

(** ** The upward scan of the form extractor *)

Lemma startsDefinition_head (t : JS.str) :
  Form.startsDefinition t = true →
  ∃ c r, t = c :: r ∧ JS.isWhiteSpace c = false ∧ c ≠ 47%N.
Proof.
  destruct t as [|c r]; [discriminate|]. intros H. exists c, r.
  split; [reflexivity|]. unfold Form.startsDefinition in H.
  rewrite !orb_true_iff, !andb_true_iff, !N.leb_le, !N.eqb_eq in H.
  split; [|lia].
  destruct (JS.isWhiteSpace c) eqn:E; [|reflexivity]. unfold JS.isWhiteSpace in E.
  rewrite !orb_true_iff, !andb_true_iff, !N.leb_le, !N.eqb_eq in E. lia.
Qed.

(** A line that starts a definition is neither blank nor a comment. *)
Lemma startsDefinition_not_blank (t : JS.str) :
  Form.startsDefinition t = true → Form.isBlankOrComment t = false.
Proof.
  intros H. destruct (startsDefinition_head t H) as (c & r & -> & Hws & Hslash).
  unfold Form.isBlankOrComment, JS.trim.
  rewrite trimStart_id by (simpl; intros ? [= <-]; exact Hws).
  destruct (trimEnd_spec (c :: r)) as (tl & Heq & Htl & _).
  destruct (JS.trimEnd (c :: r)) as [|c' x].
  - simpl in Heq. subst tl. inversion Htl; congruence.
  - injection Heq as <- _. unfold JS.eqb. rewrite bool_decide_eq_false_2 by discriminate.
    change (JS.lit "//") with [47%N; 47%N]. cbn [JS.startsWith orb].
    destruct (N.eqb_spec 47 c); [congruence | reflexivity].
Qed.

Lemma findStart_inv (d : Form.TextDocument) (cursor i : nat) (tr : list nat) :
  (i ≤ cursor)%nat → (cursor < Form.lineCount d)%nat →
  (∀ j t, (i < j ≤ cursor)%nat → Form.lines d !! j = Some t →
          Form.startsDefinition t = false) →
  ∃ s tr', Form.findStart d i cursor tr = (Form.Value s, tr') ∧ (s ≤ cursor)%nat
    ∧ (((∃ t, Form.lines d !! s = Some t ∧ Form.startsDefinition t = true)
        ∧ ∀ j t, (s < j ≤ cursor)%nat → Form.lines d !! j = Some t →
                 Form.startsDefinition t = false)
       ∨ (s = cursor
          ∧ ∀ j t, (j ≤ cursor)%nat → Form.lines d !! j = Some t →
                   Form.startsDefinition t = false)).
Proof.
  revert tr. induction i as [|i IH]; intros tr Hi Hc Hnone.
  - destruct (line_exists d 0) as [t Ht]; [lia|].
    simpl. unfold Form.bind. rewrite (lineAt_lookup d _ _ _ Ht).
    destruct (Form.startsDefinition t) eqn:Hdef.
    + rewrite (startsDefinition_not_blank t Hdef). unfold Form.ret.
      exists 0%nat, (tr ++ [0%nat]). repeat split; [lia|]. left. split; [eauto|].
      exact Hnone.
    + assert (Hall : ∀ j t0, (j ≤ cursor)%nat → Form.lines d !! j = Some t0 →
                             Form.startsDefinition t0 = false).
      { intros [|j] t0 Hj Ht0; [congruence|]. apply (Hnone (S j)); [lia | exact Ht0]. }
      destruct (Form.isBlankOrComment t); unfold Form.ret;
        exists cursor, (tr ++ [0%nat]); (repeat split; [lia|]); right; auto.
  - destruct (line_exists d (S i)) as [t Ht]; [lia|].
    simpl. unfold Form.bind. rewrite (lineAt_lookup d _ _ _ Ht).
    destruct (Form.startsDefinition t) eqn:Hdef.
    + rewrite (startsDefinition_not_blank t Hdef). unfold Form.ret.
      exists (S i), (tr ++ [S i]). repeat split; [lia|]. left. split; [eauto|].
      exact Hnone.
    + assert (Hnone' : ∀ j t0, (i < j ≤ cursor)%nat → Form.lines d !! j = Some t0 →
                               Form.startsDefinition t0 = false).
      { intros j t0 Hj Ht0. destruct (decide (j = S i)) as [->|Hne]; [congruence|].
        apply (Hnone j); [lia | exact Ht0]. }
      destruct (Form.isBlankOrComment t); apply IH; auto; lia.
Qed.

(** X9: the form starts at the nearest line at or above the cursor whose
    first character is a letter, an underscore or a colon, every line
    between it and the cursor (blank, comment or indented) being passed
    over; when no such line exists, the form starts at the cursor line. *)
Theorem findStart_nearest (d : Form.TextDocument) (cursor : nat) (tr : list nat) :
  (cursor < Form.lineCount d)%nat →
  ∃ s tr', Form.findStart d cursor cursor tr = (Form.Value s, tr') ∧ (s ≤ cursor)%nat
    ∧ (((∃ t, Form.lines d !! s = Some t ∧ Form.startsDefinition t = true)
        ∧ ∀ j t, (s < j ≤ cursor)%nat → Form.lines d !! j = Some t →
                 Form.startsDefinition t = false)
       ∨ (s = cursor
          ∧ ∀ j t, (j ≤ cursor)%nat → Form.lines d !! j = Some t →
                   Form.startsDefinition t = false)).
Proof.
  intros Hc. apply findStart_inv; [lia | exact Hc|]. intros j t Hj. lia.
Qed.

(** The body line of the scenario: the scan goes up to the first line. *)
Lemma findStart_nearest_witness :
  ∃ s tr', Form.findStart Samples.doc3 1 1 [] = (Form.Value s, tr') ∧ (s ≤ 1)%nat
    ∧ (((∃ t, Form.lines Samples.doc3 !! s = Some t ∧ Form.startsDefinition t = true)
        ∧ ∀ j t, (s < j ≤ 1)%nat → Form.lines Samples.doc3 !! j = Some t →
                 Form.startsDefinition t = false)
       ∨ (s = 1%nat
          ∧ ∀ j t, (j ≤ 1)%nat → Form.lines Samples.doc3 !! j = Some t →
                   Form.startsDefinition t = false)).
Proof.
  apply (findStart_nearest Samples.doc3 1 []). vm_compute. lia.
Defined.

(** ** The length of the annotation *)

Lemma truncate_bound (text : JS.str) : (length (Render.truncate text) ≤ 81)%nat.
Proof.
  unfold Render.truncate. destruct (Nat.ltb_spec 80 (length text)); [|lia].
  rewrite length_app, length_take. cbn [length]. lia.
Qed.

(** X10: whatever the result and the side output, the text of the inline
    annotation is at most 84 code units long, and a composed text of at
    most 80 code units is shown whole. *)
Theorem displayedText_bounded (result : JS.str) (stdout : option JS.str) :
  (length (Render.displayedText result stdout) ≤ 84)%nat
  ∧ ((length (Render.collapse (Render.combine result stdout)) ≤ 80)%nat →
     Render.displayResult result stdout
     = Render.collapse (Render.combine result stdout)).
Proof.
  split.
  - unfold Render.displayedText, Render.displayResult.
    pose proof (truncate_bound (Render.collapse (Render.combine result stdout))).
    destruct (JS.truthyOpt stdout); [lia|]. rewrite length_app. simpl. lia.
  - intros Hshort. unfold Render.displayResult, Render.truncate.
    destruct (Nat.ltb_spec 80 (length (Render.collapse (Render.combine result stdout))));
      [lia | reflexivity].
Qed.

(** A short result. *)
Lemma displayedText_bounded_witness :
  (length (Render.collapse (Render.combine (JS.lit "2") None)) ≤ 80)%nat
  ∧ Render.displayResult (JS.lit "2") None
    = Render.collapse (Render.combine (JS.lit "2") None).
Proof.
  assert (H : (length (Render.collapse (Render.combine (JS.lit "2") None)) ≤ 80)%nat)
    by (vm_compute; lia).
  split; [exact H|].
  exact (proj2 (displayedText_bounded (JS.lit "2") None) H).
Defined.

(** ** The REPL terminal *)

Lemma sendText_tracked (t : nat) (text : JS.str) (h : Repl.Host) :
  Repl.tracked h → Repl.tracked (Repl.sendText t text h).
Proof.
  intros Hh t' Ht'. unfold Repl.sendText in *. cbn [Repl.terminals Repl.replTerminal] in *.
  rewrite lookup_alter. destruct (Hh t' Ht') as [sent Hsent].
  case_decide; subst; rewrite Hsent; simpl; eauto.
Qed.

Lemma startRepl_tracked (commandPath : JS.str) (h : Repl.Host) :
  Repl.tracked h → Repl.tracked (Repl.startRepl commandPath h).
Proof.
  intros Hh. unfold Repl.startRepl. destruct (Repl.replTerminal h) eqn:Hr; [exact Hh|].
  apply sendText_tracked. intros t [= <-]. cbn [Repl.terminals].
  rewrite lookup_insert_eq. eauto.
Qed.

Lemma step_tracked (commandPath : JS.str) (h : Repl.Host) (ev : Repl.Event) :
  Repl.tracked h → Repl.tracked (Repl.step commandPath h ev).
Proof.
  intros Hh. destruct ev as [|text| |t]; simpl.
  - now apply startRepl_tracked.
  - unfold Repl.sendToRepl. destruct (Repl.replTerminal h) eqn:Hr.
    + now apply sendText_tracked.
    + pose proof (startRepl_tracked commandPath h Hh) as Hs.
      intros t Ht. exact (Hs t Ht).
  - destruct (Repl.pending h) as [|text rest]; [exact Hh|].
    cbn [Repl.replTerminal]. destruct (Repl.replTerminal h) eqn:Hr.
    + apply sendText_tracked. intros t Ht. cbn [Repl.replTerminal] in Ht.
      cbn [Repl.terminals]. apply Hh. congruence.
    + intros t Ht. cbn [Repl.replTerminal] in Ht. congruence.
  - intros t' Ht'. cbn [Repl.replTerminal Repl.terminals] in *.
    case_bool_decide as Heq; [discriminate|].
    rewrite lookup_delete_ne by congruence. now apply Hh.
Qed.

(** X11: whatever the user does (start the REPL, send text, let timers run
    out, close terminals, in any order), the variable [replTerminal], when
    set, names a terminal that is open: text is never sent to a terminal
    the user has closed. *)
Theorem replTerminal_tracked (commandPath : JS.str) (evs : list Repl.Event)
    (h : Repl.Host) :
  Repl.tracked h → Repl.tracked (Repl.run commandPath evs h).
Proof.
  unfold Repl.run. revert h. induction evs as [|ev evs IH]; intros h Hh; [exact Hh|].
  simpl. apply IH. now apply step_tracked.
Qed.

(** A session with a closed terminal: start, close, send. *)
Lemma replTerminal_tracked_witness :
  Repl.tracked Repl.initial
  ∧ Repl.tracked
      (Repl.run (JS.lit "hot")
         [Repl.StartRepl; Repl.CloseTerminal 0; Repl.SendToRepl (JS.lit "1 + 1");
          Repl.TimerFires]
         Repl.initial).
Proof.
  assert (H : Repl.tracked Repl.initial) by (intros t Ht; discriminate Ht).
  split; [exact H|].
  exact (replTerminal_tracked (JS.lit "hot") _ Repl.initial H).
Defined.

(** X12: [sendToRepl] without a REPL starts one and delivers the text when
    its timer runs out: the new terminal receives the [repl] command and
    then the text.  When the user closes that terminal before the timer
    runs out, the text is dropped and no terminal receives it. *)
Theorem sendToRepl_starts_and_delivers (commandPath text : JS.str) (h : Repl.Host) :
  Repl.replTerminal h = None → Repl.pending h = [] →
  let t := fresh (dom (Repl.terminals h)) in
  Repl.terminals h !! t = None
  ∧ Repl.replTerminal (Repl.sendToRepl commandPath text h) = Some t
  ∧ Repl.terminals
      (Repl.run commandPath [Repl.SendToRepl text; Repl.TimerFires] h) !! t
    = Some [commandPath ++ JS.lit " repl"; text]
  ∧ Repl.terminals
      (Repl.run commandPath
         [Repl.SendToRepl text; Repl.CloseTerminal t; Repl.TimerFires] h)
    = Repl.terminals h.
Proof.
  intros Hr Hp t.
  assert (Hfresh : Repl.terminals h !! t = None).
  { apply not_elem_of_dom. apply is_fresh. }
  split; [exact Hfresh|].
  unfold Repl.run. cbn [fold_left Repl.step].
  unfold Repl.sendToRepl, Repl.startRepl. rewrite Hr, Hp.
  cbn [Repl.sendText Repl.terminals Repl.replTerminal Repl.pending app].
  fold t. split; [reflexivity|]. split.
  - rewrite lookup_alter, lookup_alter. rewrite !decide_True by reflexivity.
    now rewrite lookup_insert_eq.
  - rewrite bool_decide_eq_true_2 by reflexivity.
    cbn [Repl.terminals Repl.replTerminal].
    apply map_eq. intros k. destruct (decide (k = t)) as [->|Hne].
    + now rewrite lookup_delete_eq, Hfresh.
    + rewrite lookup_delete_ne by congruence.
      rewrite lookup_alter_ne by congruence. now rewrite lookup_insert_ne by congruence.
Qed.

(** Sending [1 + 1] in a fresh session. *)
Lemma sendToRepl_starts_and_delivers_witness :
  Repl.terminals
    (Repl.run (JS.lit "hot") [Repl.SendToRepl (JS.lit "1 + 1"); Repl.TimerFires]
       Repl.initial) !! fresh (dom (Repl.terminals Repl.initial))
  = Some [JS.lit "hot" ++ JS.lit " repl"; JS.lit "1 + 1"].
Proof.
  exact (proj1 (proj2 (proj2
    (sendToRepl_starts_and_delivers (JS.lit "hot") (JS.lit "1 + 1") Repl.initial
       eq_refl eq_refl)))).
Defined.

(** ** Evaluation from the commands *)

(** X13: a request goes to the language server only while a client is set
    and the last state it reported is Running.  After [hot.stopAnalyzer],
    and after the client reports Starting or Stopped, an evaluation sends
    no request and runs the command-line tool exactly once; with a client
    set and Running reported, the first thing an evaluation does is send
    the [hot/eval] request. *)
Theorem evaluate_follows_client_state (env : Eval.Env) (code : JS.str)
    (namespace fileUri : option JS.str) (newState : Z) :
  (Eval.evaluateHotCode (Commands.stopAnalyzer env) code namespace fileUri).2
  = [Eval.ExecutedFile (Eval.commandPath env) [JS.lit "eval"; code] 30000
       (Eval.cwd env)]
  ∧ (newState ≠ 2%Z →
     (Eval.evaluateHotCode (Commands.onDidChangeState newState env) code
        namespace fileUri).2
     = [Eval.ExecutedFile (Eval.commandPath env) [JS.lit "eval"; code] 30000
          (Eval.cwd env)])
  ∧ (Eval.client env = true →
     head (Eval.evaluateHotCode (Commands.onDidChangeState 2 env) code
             namespace fileUri).2
     = Some (Eval.SentRequest (JS.lit "hot/eval")
               {| Eval.code := code; Eval.paramNamespace := Eval.orNull namespace;
                  Eval.paramFileUri := Eval.orNull fileUri |})).
Proof.
  split; [|split].
  - unfold Commands.stopAnalyzer, Eval.evaluateHotCode.
    destruct (Eval.client env) eqn:Hc; cbn [Eval.client Eval.isRunning andb].
    + rewrite cliFallback_events. reflexivity.
    + rewrite Hc. cbn [andb]. apply cliFallback_events.
  - intros Hne. unfold Commands.onDidChangeState, Eval.evaluateHotCode.
    cbn [Eval.client Eval.isRunning].
    destruct (Z.eqb_spec newState 2); [contradiction|].
    rewrite andb_false_r. rewrite cliFallback_events. reflexivity.
  - intros Hc. unfold Commands.onDidChangeState, Eval.evaluateHotCode.
    cbn [Eval.client Eval.isRunning Eval.sendRequest Eval.channel]. rewrite Hc.
    cbn [andb Z.eqb Pos.eqb].
    destruct (Eval.sendRequest env _ _) as [[r|]|e]; [reflexivity| |];
      destruct (Eval.cliFallback _ code) as [settled events]; reflexivity.
Qed.

(** A server that has reported Stopped. *)
Lemma evaluate_follows_client_state_witness :
  (3 ≠ 2)%Z
  ∧ (Eval.evaluateHotCode (Commands.onDidChangeState 3 MoreSamples.serverUp)
       (JS.lit "1 + 1") None None).2
    = [Eval.ExecutedFile (JS.lit "hot") [JS.lit "eval"; JS.lit "1 + 1"] 30000
         (JS.lit "/work")]
  ∧ head (Eval.evaluateHotCode (Commands.onDidChangeState 2 MoreSamples.serverUp)
            (JS.lit "1 + 1") None None).2
    = Some (Eval.SentRequest (JS.lit "hot/eval")
              {| Eval.code := JS.lit "1 + 1"; Eval.paramNamespace := None;
                 Eval.paramFileUri := None |}).
Proof.
  assert (H : (3 ≠ 2)%Z) by lia.
  pose proof (evaluate_follows_client_state MoreSamples.serverUp (JS.lit "1 + 1")
                None None 3) as (_ & Hstopped & _).
  pose proof (evaluate_follows_client_state MoreSamples.serverUp (JS.lit "1 + 1")
                None None 3) as (_ & _ & Hrunning).
  split; [exact H|]. split; [exact (Hstopped H) | exact (Hrunning eq_refl)].
Defined.



(** X15: when the server answers with a failure that carries no error text
    and no side output with visible content, the eval commands show no
    annotation: [showInlineResult] is handed [undefined] and throws. *)
Theorem evalAndAnnotate_silent_failure (env : Eval.Env) (code : JS.str)
    (namespace fileUri : option JS.str) (r : Eval.EvalResult) :
  Eval.client env && Eval.isRunning env = true →
  Eval.sendRequest env (JS.lit "hot/eval")
    {| Eval.code := code; Eval.paramNamespace := Eval.orNull namespace;
       Eval.paramFileUri := Eval.orNull fileUri |} = Eval.Responds (Some r) →
  Eval.success r = false → Eval.error r = None →
  Render.hasOutput (Eval.stdout r) = false →
  ∃ message, Commands.evalAndAnnotate env code namespace fileUri
             = Form.Thrown message.
Proof.
  intros Hup Hreply Hfail Herr Hout.
  unfold Commands.evalAndAnnotate, Eval.evaluateHotCode. rewrite Hup, Hreply.
  cbn [fst Eval.success Eval.error Eval.stdout]. rewrite Hfail, Herr.
  unfold Commands.inlineAnnotation. rewrite Hout. eauto.
Qed.

(** A server that reports a failure and nothing else. *)
Lemma evalAndAnnotate_silent_failure_witness :
  ∃ message,
    Commands.evalAndAnnotate MoreSamples.serverFailsSilently (JS.lit "1 + 1") None None
    = Form.Thrown message.
Proof.
  exact (evalAndAnnotate_silent_failure MoreSamples.serverFailsSilently
           (JS.lit "1 + 1") None None _ eq_refl eq_refl eq_refl eq_refl eq_refl).
Defined.

(** ** Formatting from the command *)




(** X17: after a clean exit of the formatter the temporary file never
    stays behind, whether the read-back succeeds, throws, or the formatter
    itself has removed the file. *)
Theorem format_clean_exit_removes_tmp (env : Fmt.Env) (content : JS.str)
    (w : Fmt.World) (out err : JS.str) :
  Fmt.writeFault env = None →
  (Fmt.ran env content w).1 = Child.ExitZero out err →
  Fmt.files (Fmt.formatHotDocument env content w).2 !! Fmt.tmpFile env = None.
Proof.
  intros Hw Hexit. rewrite (format_after_write env content w Hw), Hexit.
  cbn [Child.callbackArgs].
  unfold Fmt.onFormatted, Fmt.tryCatch, Fmt.bind, Fmt.readFileSync,
    Fmt.unlinkSync, Fmt.appendLine, Fmt.ret.
  cbn [Fmt.files Fmt.logged].
  repeat case_match; simplify_eq; cbn [snd Fmt.files];
    first [apply lookup_delete_eq | assumption].
Qed.

(** A formatter that rewrites the file, on a file system whose reads fail. *)
Lemma format_clean_exit_removes_tmp_witness :
  Fmt.files
    (Fmt.formatHotDocument MoreSamples.fmtUnreadable (JS.lit "x  1") Samples.emptyWorld).2
    !! Fmt.tmpFile MoreSamples.fmtUnreadable = None.
Proof.
  exact (format_clean_exit_removes_tmp MoreSamples.fmtUnreadable (JS.lit "x  1")
           Samples.emptyWorld [] [] eq_refl eq_refl).
Defined.

(** X18: after a clean exit with the file read back, applying the edits
    [formatHotDocument] returns to the document gives exactly the
    formatter's output, and [hot.formatDocument] reports "Hot file
    formatted." when that differs from the document and "File already
    formatted." when it does not. *)
Theorem formatDocument_applies_output (env : Fmt.Env) (content : JS.str)
    (w : Fmt.World) (out err formatted : JS.str) :
  Fmt.writeFault env = None → Fmt.readFault env = None →
  (Fmt.ran env content w).1 = Child.ExitZero out err →
  (Fmt.ran env content w).2 !! Fmt.tmpFile env = Some formatted →
  ∃ edits w', Fmt.formatHotDocument env content w = (Eval.Fulfilled edits, w')
    ∧ fold_left Commands.applyEdit edits content = formatted
    ∧ Commands.formatMessage edits
      = if JS.eqb formatted content then JS.lit "File already formatted."
        else JS.lit "Hot file formatted.".
Proof.
  intros Hw Hr Hexit Hfile.
  rewrite (format_clean_exit env content w out err formatted Hw Hr Hexit Hfile).
  eexists _, _. split; [reflexivity|]. unfold JS.eqb.
  case_bool_decide as Heq.
  - split; [simpl; congruence | reflexivity].
  - split; [|reflexivity]. unfold Commands.applyEdit, Fmt.replaceAll. simpl.
    now rewrite drop_all, app_nil_r.
Qed.

(** A document with two spaces that the formatter rewrites with one. *)
Lemma formatDocument_applies_output_witness :
  ∃ edits w',
    Fmt.formatHotDocument MoreSamples.fmtRewrites (JS.lit "x  1") Samples.emptyWorld
    = (Eval.Fulfilled edits, w')
    ∧ fold_left Commands.applyEdit edits (JS.lit "x  1") = JS.lit "x 1"
    ∧ Commands.formatMessage edits
      = if JS.eqb (JS.lit "x 1") (JS.lit "x  1") then JS.lit "File already formatted."
        else JS.lit "Hot file formatted.".
Proof.
  apply (formatDocument_applies_output MoreSamples.fmtRewrites (JS.lit "x  1")
           Samples.emptyWorld [] [] (JS.lit "x 1")); reflexivity.
Defined.

(** X19: when the formatter fails without the CHAR-AUDIT marker, the
    document gets no edit and [hot.formatDocument] reports "File already
    formatted.". *)
Theorem formatDocument_failure_reported_formatted (env : Fmt.Env) (content : JS.str)
    (w : Fmt.World) (e : Child.JsError) (out err : JS.str) :
  Fmt.writeFault env = None →
  Child.callbackArgs (Fmt.ran env content w).1 = (Some e, out, err) →
  JS.truthy err && JS.includes err (JS.lit "CHAR-AUDIT") = false →
  (Fmt.formatHotDocument env content w).1 = Eval.Fulfilled []
  ∧ ∀ edits, (Fmt.formatHotDocument env content w).1 = Eval.Fulfilled edits →
             fold_left Commands.applyEdit edits content = content
             ∧ Commands.formatMessage edits = JS.lit "File already formatted.".
Proof.
  intros Hw Hargs Hmark.
  destruct (format_other_failure env content w e out err Hw Hargs Hmark) as [Hres _].
  split; [exact Hres|]. intros edits Hedits. rewrite Hres in Hedits.
  injection Hedits as <-. split; reflexivity.
Qed.

(** A formatter that rejects the source. *)
Lemma formatDocument_failure_reported_formatted_witness :
  (Fmt.formatHotDocument Samples.fmtRejects (JS.lit "x 1") Samples.emptyWorld).1
  = Eval.Fulfilled []
  ∧ ∀ edits,
      (Fmt.formatHotDocument Samples.fmtRejects (JS.lit "x 1") Samples.emptyWorld).1
      = Eval.Fulfilled edits →
      fold_left Commands.applyEdit edits (JS.lit "x 1") = JS.lit "x 1"
      ∧ Commands.formatMessage edits = JS.lit "File already formatted.".
Proof.
  apply (formatDocument_failure_reported_formatted Samples.fmtRejects (JS.lit "x 1")
           Samples.emptyWorld
           {| Child.message := JS.lit "Command failed: hot fmt /tmp/hot-fmt-1.hot" |}
           [] (JS.lit "error: unexpected token")); reflexivity.
Defined.

(** ** Annotations in a row *)

(** X20: the edit handler does not cancel the 10-second timer.  When an
    annotation is cleared by an edit and a second one is shown on the same
    editor before the first one's timer runs out, that timer removes the
    second annotation. *)
Theorem stale_timer_clears_new_annotation (h : Render.Host)
    (editor : Render.Editor) (range range' : Form.Range)
    (result result' : JS.str) (isError isError' : bool)
    (stdout stdout' : option JS.str) :
  let '(h1, l, t) := Render.showInlineResult editor range result isError stdout h in
  let h2 := Render.fire (Render.DidChangeTextDocument l (Render.document editor)) h1 in
  let '(h3, _, _) :=
    Render.showInlineResult editor range' result' isError' stdout' h2 in
  Render.decorations h3 !! Render.editorId editor
  = Some [{| Render.range := {| Form.start := Form.stop range';
                                Form.stop := Form.stop range' |};
             Render.contentText := Render.displayedText result' stdout';
             Render.color := if isError' then Render.errorForeground
                             else Render.terminalAnsiGreen |}]
  ∧ Render.decorations (Render.fire (Render.Timeout t) h3)
      !! Render.editorId editor = Some [].
Proof.
  pose proof (earlier_timer_clears_later_annotation h editor range range' result
                result' isError isError' stdout stdout') as H.
  destruct (Render.showInlineResult editor range _ _ _ h) as [[h1 l] t].
  cbv zeta in *.
  destruct (Render.showInlineResult editor range' _ _ _ _) as [[h3 l'] t'] eqn:Hshow.
  destruct H as [_ Hclear]. split; [|exact Hclear].
  unfold Render.showInlineResult in Hshow. injection Hshow as <- _ _.
  cbn [Render.decorations Render.setDecorations]. apply lookup_insert_eq.
Qed.
